(** * DShield connector: a shallow embedding of [dshield_connector.py]

    The connector fetches the DShield intel feed, derives labels from
    the feed entries, creates one IPv4 observable per entry in the
    OpenCTI store, attaches the labels, and dumps a summary to a JSON
    file.

    The embedding follows the Python source function by function.
    Every call that leaves the process (the OpenCTI API, the HTTP
    request, the file write, [time.sleep], error-level logging) is
    recorded in a trace kept in the state; its outcome is decided by a
    [World], an oracle that may depend on everything that happened
    before.  Python exceptions are the [Raise] outcome of a small
    state-and-error monad.

    Scope notes:
    - feed entries are JSON objects whose ['ip'] and ['description']
      members, when present, are strings;
    - [str.lower] is modelled on the ASCII range (other bytes are left
      alone);
    - [logger.info] lines are not traced; [logger.error] and
      [helper.log_error] are, and neither is taken to raise;
    - the store is known through the connector's calls only: a label
      is in it when it was there at the start or when a creation call
      answered with an object;
    - the constant arguments of the observable creation (marking,
      score, indicator flag) are left out of the traced call, and the
      environment-derived settings of [__init__] and the construction
      of the helper itself are not modelled. *)

From Stdlib Require Import Ascii String.
From stdpp Require Import base list gmap strings.

Local Open Scope string_scope.
#[local] Set Warnings "-clear-no-such-hyp".

(** ** Strings *)

Definition lower_ascii (c : ascii) : ascii :=
  let n := nat_of_ascii c in
  if (65 <=? n)%nat && (n <=? 90)%nat then ascii_of_nat (n + 32) else c.

Fixpoint lower (s : string) : string :=
  match s with
  | EmptyString => EmptyString
  | String c r => String (lower_ascii c) (lower r)
  end.

(** Python truthiness of a string: non-empty. *)
Definition truthy (s : string) : bool :=
  match s with
  | EmptyString => false
  | String _ _ => true
  end.

(** ** Data *)

(** One feed entry: a JSON object; [None] means the key is absent. *)
Record Entry := mkEntry {
  ip : option string;
  description : option string
}.

(** An element of [output["objects"]]. *)
Record Obj := mkObj {
  obj_type : string;
  obj_value : string;
  obj_labels : list string
}.

(** The [output] dict of [create_opencti_objects]. *)
Record Output := mkOutput {
  out_labels : list string;
  out_objects : list Obj
}.

(** A label as the store keeps it. *)
Record Label := mkLabel {
  lbl_value : string;
  lbl_id : string
}.

(** Exceptions, by the classes the source distinguishes. *)
Inductive ExnClass :=
| RequestException
| JSONDecodeError
| OtherException.

Record Exn := mkExn {
  exn_class : ExnClass;
  exn_msg : string
}.

(** What [x["id"]] raises when [x] is [None]. *)
Definition TypeError_None : Exn :=
  mkExn OtherException "'NoneType' object is not subscriptable".

(** Calls that leave the process, with the arguments the source passes. *)
Inductive Call :=
| ExternalReferenceCreate (source_name url : string)
| IdentityCreate (name descr : string) (externalReferences : list string)
| LabelList (search : string)
| LabelCreate (value color : string)
| ObservableCreate (simple_observable_key simple_observable_value : string)
    (externalReferences : list string) (createdBy : string)
    (main_observable_type : string)
| AddLabel (id lid : string)
| Sleep
| HelperLogError (msg : string)
| LoggerError (msg : string)
| SetLevelDebug
| HttpGet (url : string)
| FileWrite (filename : string) (data : Output).

(** The outside world.  [raises h c] tells whether call [c], issued
    after the calls [h] (newest first), raises; [answer h c] is the id
    of the object a create call returns, [None] when the call returns
    no object; [search_match kw v] tells whether the store's label
    search for keyword [kw] returns a label of value [v]; [feed h] is
    the parsed body of the feed response. *)
Record World := mkWorld {
  search_match : string -> string -> bool;
  raises : list Call -> Call -> option Exn;
  answer : list Call -> Call -> option string;
  feed : list Call -> list Entry
}.

(** The state threaded through the connector: the labels the store
    holds and the trace of calls, newest first. *)
Record Store := mkStore {
  store_labels : list Label;
  calls : list Call
}.

(** [self]: what [__init__] leaves in the connector object. *)
Record Connector := mkConnector {
  organization : option string
}.

(** ** The monad *)

Inductive Res (A : Type) :=
| Ok (a : A)
| Raise (e : Exn).
Arguments Ok {A} a.
Arguments Raise {A} e.

Definition M (A : Type) : Type := Store -> Res A * Store.

Global Instance M_ret : MRet M := fun A a s => (Ok a, s).

Global Instance M_bind : MBind M := fun A B k m s =>
  match m s with
  | (Ok a, s') => k a s'
  | (Raise e, s') => (Raise e, s')
  end.

Definition raise {A} (e : Exn) : M A := fun s => (Raise e, s).

(** [try: m except Exception as e: h e] *)
Definition try_except {A} (m : M A) (h : Exn -> M A) : M A := fun s =>
  match m s with
  | (Ok a, s') => (Ok a, s')
  | (Raise e, s') => h e s'
  end.

Definition record (c : Call) (s : Store) : Store :=
  mkStore (store_labels s) (c :: calls s).

(** Issue call [c]: it is traced, then it raises or returns. *)
Definition call (w : World) (c : Call) : M unit := fun s =>
  match raises w (calls s) c with
  | Some e => (Raise e, record c s)
  | None => (Ok tt, record c s)
  end.

(** A call that cannot fail (sleeping, logging). *)
Definition emit (c : Call) : M unit := fun s => (Ok tt, record c s).

(** A create call: traced, may raise, returns the id of the created
    object or [None]. *)
Definition create (w : World) (c : Call) : M (option string) := fun s =>
  match raises w (calls s) c with
  | Some e => (Raise e, record c s)
  | None => (Ok (answer w (calls s) c), record c s)
  end.

(** [x["id"]] *)
Definition get_id (x : option string) : M string :=
  match x with
  | Some i => mret i
  | None => raise TypeError_None
  end.

(** ** The store's label API *)

(** [helper.api.label.list(search=kw)] *)
Definition label_list (w : World) (kw : string) : M (list Label) := fun s =>
  match raises w (calls s) (LabelList kw) with
  | Some e => (Raise e, record (LabelList kw) s)
  | None =>
      (Ok (filter (fun l => search_match w kw (lbl_value l) = true) (store_labels s)),
       record (LabelList kw) s)
  end.

(** [helper.api.label.create(value=v, color=c)]: when the store answers
    with an object, the label is in the store from then on. *)
Definition label_create (w : World) (v c : string) : M (option Label) := fun s =>
  match raises w (calls s) (LabelCreate v c) with
  | Some e => (Raise e, record (LabelCreate v c) s)
  | None =>
      match answer w (calls s) (LabelCreate v c) with
      | Some i =>
          (Ok (Some (mkLabel v i)),
           mkStore (store_labels s ++ [mkLabel v i]) (LabelCreate v c :: calls s))
      | None => (Ok None, record (LabelCreate v c) s)
      end
  end.

(** ** [DShieldConnector] *)

Definition default_color : string := "#ffa500".
Definition feed_url : string := "https://isc.sans.edu/api/intelfeed?json".

(** [__init__]: the external reference of the organization, then the
    organization itself. *)
Definition init (w : World) : M Connector :=
  external_reference_org ← create w (ExternalReferenceCreate "dshield.org" "https://dshield.org/");
  ref_id ← get_id external_reference_org;
  org ← create w (IdentityCreate "DShield" "DShield Intel Feed importer" [ref_id]);
  mret (mkConnector org).

(** The [for label in labels] loop of [get_label]: the id of the first
    listed label whose value equals [label_value] up to case. *)
Fixpoint find_label (labels : list Label) (label_value : string) : option string :=
  match labels with
  | [] => None
  | label :: rest =>
      if String.eqb (lower (lbl_value label)) (lower label_value)
      then Some (lbl_id label)
      else find_label rest label_value
  end.

Definition get_label (w : World) (label_value color : string) : M string :=
  labels ← label_list w label_value;
  match find_label labels label_value with
  | Some i => mret i
  | None =>
      new_label ← label_create w label_value color;
      get_id (lbl_id <$> new_label)
  end.

(** The message [create_observable] logs when a label fails. *)
Definition label_failure (label observable_value : string) (e : Exn) : string :=
  "Failed to add label " +:+ label +:+ " to " +:+ observable_value
  +:+ ": " +:+ exn_msg e.

(** The [try] block of the label loop of [create_observable]. *)
Definition attach_label (w : World) (observable_id label : string) : M unit :=
  label_id ← get_label w label default_color;
  if truthy label_id
  then emit Sleep ;; call w (AddLabel observable_id label_id)
  else mret tt.

(** The body of the [for label in labels] loop of [create_observable]:
    the [try] block and its [except Exception] handler. *)
Definition add_one_label (w : World) (observable_id observable_value label : string) : M unit :=
  try_except (attach_label w observable_id label)
    (fun e =>
       emit (HelperLogError (label_failure label observable_value e)) ;;
       emit Sleep).

Fixpoint add_labels (w : World) (observable_id observable_value : string)
    (labels : list string) : M unit :=
  match labels with
  | [] => mret tt
  | label :: rest =>
      add_one_label w observable_id observable_value label ;;
      add_labels w observable_id observable_value rest
  end.

Definition create_observable (w : World) (self : Connector)
    (observable_key observable_value description observable_type
       external_reference_id : string)
    (labels : list string) : M (option string) :=
  created_by ← get_id (organization self);
  observable ← create w (ObservableCreate observable_key observable_value
                           [external_reference_id] created_by observable_type);
  match observable, labels with
  | Some observable_id, _ :: _ =>
      add_labels w observable_id observable_value labels
  | _, _ => mret tt
  end ;;
  mret observable.

(** [requests.get(...)], [raise_for_status()] and [response.json()]. *)
Definition http_get_json (w : World) : M (list Entry) := fun s =>
  match raises w (calls s) (HttpGet feed_url) with
  | Some e => (Raise e, record (HttpGet feed_url) s)
  | None => (Ok (feed w (calls s)), record (HttpGet feed_url) s)
  end.

Definition fetch_dshield_data (w : World) : M (list Entry) :=
  try_except (http_get_json w)
    (fun e =>
       match exn_class e with
       | RequestException =>
           emit (LoggerError ("Error fetching DShield data: " +:+ exn_msg e)) ;; mret []
       | JSONDecodeError =>
           emit (LoggerError ("Error parsing DShield data: " +:+ exn_msg e)) ;; mret []
       | OtherException =>
           emit (LoggerError ("Unexpected error fetching DShield data: " +:+ exn_msg e)) ;;
           mret []
       end).

(** The [labels] set of [extract_labels] after its loop. *)
Definition label_set (data : list Entry) : gset string :=
  foldl (fun (labels : gset string) entry =>
           match description entry with
           | Some d => labels ∪ {[ lower d ]}
           | None => labels
           end) ∅ data.

(** [list(labels)]: some enumeration of the set; the order Python
    gives is unspecified, [elements] stands for it. *)
Definition extract_labels (data : list Entry) : list string :=
  elements (label_set data).

(** Lines 166-168: the labels of one entry. *)
Definition entry_labels (entry : Entry) : list string :=
  "dshield" :: match description entry with
               | Some d => [lower d]
               | None => []
               end.

(** The body of the [for entry in data] loop of
    [create_opencti_objects]; [objects] is [output["objects"]]. *)
Definition process_entry (w : World) (self : Connector)
    (external_reference : option string) (entry : Entry)
    (objects : list Obj) : M (list Obj) :=
  match ip entry with
  | None => mret objects
  | Some v =>
      let labels := entry_labels entry in
      external_reference_id ← get_id external_reference;
      ip_obs ← create_observable w self "IPv4-Addr.value" v
                 ("DShield Intel Feed entry for " +:+ v) "IPv4-Addr"
                 external_reference_id labels;
      match ip_obs with
      | Some _ => mret (objects ++ [mkObj "ipv4-addr" v labels])%list
      | None => mret objects
      end
  end.

Fixpoint process_entries (w : World) (self : Connector)
    (external_reference : option string) (data : list Entry)
    (objects : list Obj) : M (list Obj) :=
  match data with
  | [] => mret objects
  | entry :: rest =>
      objects' ← process_entry w self external_reference entry objects;
      process_entries w self external_reference rest objects'
  end.

Definition create_opencti_objects (w : World) (self : Connector)
    (data : list Entry) (test_mode : bool) : M Output :=
  let labels := extract_labels data in
  external_reference ← create w (ExternalReferenceCreate "dshield.org" feed_url);
  objects ← process_entries w self external_reference data [];
  mret (mkOutput labels objects).

Definition save_to_json (w : World) (data : Output) (filename : string) : M unit :=
  try_except (call w (FileWrite filename data))
    (fun e =>
       emit (LoggerError ("Error saving data to " +:+ filename +:+ ": " +:+ exn_msg e))).

Definition run (w : World) (self : Connector) (test_mode : bool) : M unit :=
  try_except
    (data ← fetch_dshield_data w;
     match data with
     | [] => emit (LoggerError "No data received from DShield")
     | _ :: _ =>
         output ← create_opencti_objects w self data test_mode;
         save_to_json w output "dshield_export.json"
     end)
    (fun e => emit (LoggerError ("Error in connector run: " +:+ exn_msg e))).

(** The parsed command line. *)
Record Args := mkArgs {
  test : bool;
  debug : bool
}.

Definition main (w : World) (args : Args) : M unit :=
  (if debug args then emit SetLevelDebug else mret tt) ;;
  connector ← init w;
  run w connector (test args).

(** ** Concrete worlds, used to run the connector *)

(** Ids the example store hands out. *)
Definition example_answer (c : Call) : option string :=
  match c with
  | ExternalReferenceCreate source_name _ => Some ("external-reference--" +:+ source_name)
  | IdentityCreate name _ _ => Some ("identity--" +:+ name)
  | LabelCreate value _ => Some ("label--" +:+ value)
  | ObservableCreate _ value _ _ _ => Some ("observable--" +:+ value)
  | _ => None
  end.

(** A store in which every call succeeds and the label search returns
    the labels equal to the keyword up to case. *)
Definition reliable_world (data : list Entry) : World :=
  mkWorld (fun kw v => String.eqb (lower kw) (lower v))
          (fun _ _ => None)
          (fun _ c => example_answer c)
          (fun _ => data).

(** The same store, except that the calls for which [bad] gives an
    exception raise it. *)
Definition faulty_world (data : list Entry) (bad : Call -> option Exn) : World :=
  mkWorld (fun kw v => String.eqb (lower kw) (lower v))
          (fun _ c => bad c)
          (fun _ c => example_answer c)
          (fun _ => data).

(** A store that answers the creation of observable 1.1.1.1 with no
    object; everything else succeeds. *)
Definition silent_world (data : list Entry) : World :=
  mkWorld (fun kw v => String.eqb (lower kw) (lower v))
          (fun _ _ => None)
          (fun _ c => match c with
                      | ObservableCreate _ "1.1.1.1" _ _ _ => None
                      | _ => example_answer c
                      end)
          (fun _ => data).

(** A store that refuses to attach the base label. *)
Definition rate_limited_world (data : list Entry) : World :=
  faulty_world data
    (fun c => match c with
              | AddLabel _ "label--dshield" => Some (mkExn OtherException "rate limit")
              | _ => None
              end).

(** A store whose creation of observable 1.1.1.1 raises. *)
Definition rejecting_world (data : list Entry) : World :=
  faulty_world data
    (fun c => match c with
              | ObservableCreate _ "1.1.1.1" _ _ _ =>
                  Some (mkExn OtherException "store error")
              | _ => None
              end).

(** A feed that cannot be reached. *)
Definition unreachable_world : World :=
  faulty_world []
    (fun c => match c with
              | HttpGet _ => Some (mkExn RequestException "connection refused")
              | _ => None
              end).

Definition empty_store : Store := mkStore [] [].

(** The trace of a computation, oldest call first. *)
Definition trace {A} (r : Res A * Store) : list Call := rev (calls r.2).

(** ** Predicates on computations and traces *)

(** The keywords of the label searches in a list of calls. *)
Definition searched (cs : list Call) : list string :=
  omap (fun c => match c with LabelList kw => Some kw | _ => None end) cs.

(** The values of the label creations in a list of calls. *)
Definition created (cs : list Call) : list string :=
  omap (fun c => match c with LabelCreate v _ => Some v | _ => None end) cs.

(** Calls addressed to the knowledge store. *)
Definition store_call (c : Call) : bool :=
  match c with
  | ExternalReferenceCreate _ _ | IdentityCreate _ _ _ | LabelList _
  | LabelCreate _ _ | ObservableCreate _ _ _ _ _ | AddLabel _ _ => true
  | _ => false
  end.

Definition is_logger_error (c : Call) : Prop :=
  exists msg, c = LoggerError msg.

(** The vocabulary as the specification words it: the set of the
    lower-cased, non-empty description values of the records. *)
Definition spec_vocabulary (data : list Entry) : gset string :=
  list_to_set
    (omap (fun entry =>
             match description entry with
             | Some d => if truthy d then Some (lower d) else None
             | None => None
             end) data).

(** The lower-cased description values of the records that have a
    [description] key. *)
Definition described (data : list Entry) : list string :=
  omap (fun entry => lower <$> description entry) data.

(** The values of the observable creations in a list of calls. *)
Definition observed (cs : list Call) : list string :=
  omap (fun c => match c with
                 | ObservableCreate _ v _ _ _ => Some v
                 | _ => None
                 end) cs.

(** The calls the label loop of [create_observable] may issue for the
    observable [observable_id] and the labels [labels]. *)
Definition tag_call (observable_id observable_value : string)
    (labels : list string) (c : Call) : Prop :=
  match c with
  | LabelList kw => kw ∈ labels
  | LabelCreate v color => v ∈ labels /\ color = default_color
  | Sleep => True
  | AddLabel i _ => i = observable_id
  | HelperLogError msg =>
      exists label e, label ∈ labels /\ msg = label_failure label observable_value e
  | _ => False
  end.

(** How many label-creation calls in [cs] are for the tag [t], up to
    case. *)
Definition creations_of (t : string) (cs : list Call) : nat :=
  length (filter (fun v => lower v = lower t) (created cs)).

(** The store holds a label whose value is [t] up to case. *)
Definition has_label (t : string) (s : Store) : Prop :=
  exists l, l ∈ store_labels s /\ lower (lbl_value l) = lower t.

(** [stable I m]: running [m] keeps the state property [I]. *)
Definition stable {A} (I : Store -> Prop) (m : M A) : Prop :=
  forall s, I s -> I (m s).2.

(** The label search returns every label equal to the keyword up to
    case. *)
Definition honest_search (w : World) : Prop :=
  forall kw v, lower v = lower kw -> search_match w kw v = true.

(** Label creation neither raises nor comes back without an object. *)
Definition reliable_label_create (w : World) : Prop :=
  forall h v c,
    raises w h (LabelCreate v c) = None /\ answer w h (LabelCreate v c) <> None.

(** The tag [t] has been created at most once, and if it has, the store
    holds it. *)
Definition once_created (t : string) (s : Store) : Prop :=
  creations_of t (calls s) <= 1 /\
  (creations_of t (calls s) = 1 -> has_label t s).

(** The IP values of the records that have an [ip] key. *)
Definition has_ip (data : list Entry) (v : string) : Prop :=
  exists e, e ∈ data /\ ip e = Some v.

(** How many labels equal to [t] up to case the store holds. *)
Definition labels_for (t : string) (s : Store) : nat :=
  length (filter (fun l => lower (lbl_value l) = lower t) (store_labels s)).

(** ** Further vocabulary for the whole-run properties *)

(** The state [main] hands to [__init__]: the debug flag has been
    honoured. *)
Definition after_flags (args : Args) (s : Store) : Store :=
  if debug args then record SetLevelDebug s else s.

(** Calls [__init__] and the flag handling may issue. *)
Definition startup_call (c : Call) : bool :=
  match c with
  | SetLevelDebug | ExternalReferenceCreate _ _ | IdentityCreate _ _ _ => true
  | _ => false
  end.

(** The object [create_opencti_objects] publishes for a record once its
    observable exists; nothing for a record without an [ip] key. *)
Definition candidate (entry : Entry) : option Obj :=
  match ip entry with
  | Some v => Some (mkObj "ipv4-addr" v (entry_labels entry))
  | None => None
  end.

(** The objects of all records that have an [ip] key, in feed order. *)
Definition candidates (data : list Entry) : list Obj :=
  omap candidate data.

(** The URLs of the HTTP requests in a list of calls. *)
Definition requests (cs : list Call) : list string :=
  omap (fun c => match c with HttpGet url => Some url | _ => None end) cs.

(** The file writes in a list of calls. *)
Definition writes (cs : list Call) : list (string * Output) :=
  omap (fun c => match c with FileWrite f o => Some (f, o) | _ => None end) cs.

(** What the label loop of [create_observable] may add to the trace for
    one label, oldest call first: the search, possibly the creation,
    then nothing (empty handle), or the pause and the attachment, or
    the failure line and the pause after whichever step raised. *)
Definition label_protocol (observable_id observable_value label : string)
    (chunk : list Call) : Prop :=
  exists pre post,
    chunk = (pre ++ post)%list /\
    (pre = [LabelList label] \/
     pre = [LabelList label; LabelCreate label default_color]) /\
    (post = [] \/
     (exists i, post = [Sleep; AddLabel observable_id i]) \/
     (exists i e, post = [Sleep; AddLabel observable_id i;
                          HelperLogError (label_failure label observable_value e);
                          Sleep]) \/
     (exists e, post = [HelperLogError (label_failure label observable_value e);
                        Sleep])).

Definition is_sleep (c : option Call) : bool :=
  match c with
  | Some Sleep => true
  | _ => false
  end.

(** Pacing of a trace, oldest call first, [prev] being the call before
    it: every label attachment directly follows a pause, and every
    label-failure line is directly followed by one. *)
Fixpoint paced (prev : option Call) (cs : list Call) : bool :=
  match cs with
  | [] => true
  | c :: rest =>
      match c with
      | AddLabel _ _ => is_sleep prev
      | HelperLogError _ => is_sleep (head rest)
      | _ => true
      end && paced (Some c) rest
  end.

(** Calls that only the label loop of [create_observable] issues. *)
Definition label_loop_call (c : Call) : bool :=
  match c with
  | LabelList _ | LabelCreate _ _ | Sleep | AddLabel _ _ | HelperLogError _ => true
  | _ => false
  end.

(** [adds T m]: whatever the state, [m] only appends to the trace, and
    what it appends, oldest call first, satisfies [T]. *)
Definition adds {A} (T : list Call -> Prop) (m : M A) : Prop :=
  forall s, exists new, calls (m s).2 = (rev new ++ calls s)%list /\ T new.

(** The tags the records of a feed can carry. *)
Definition feed_tag (data : list Entry) (t : string) : Prop :=
  t = "dshield" \/ t ∈ described data.

(** Calls the publishing loop may issue for the feed [data]. *)
Definition publishing_call (data : list Entry) (c : Call) : Prop :=
  match c with
  | ObservableCreate k v _ _ t =>
      k = "IPv4-Addr.value" /\ t = "IPv4-Addr" /\ has_ip data v
  | LabelList kw => feed_tag data kw
  | LabelCreate v color => feed_tag data v /\ color = default_color
  | Sleep | AddLabel _ _ | HelperLogError _ => True
  | _ => False
  end.

(** The observable and external-reference calls never raise and always
    answer with an object. *)
Definition accepts_observables (w : World) : Prop :=
  forall h c,
    match c with
    | ObservableCreate _ _ _ _ _ | ExternalReferenceCreate _ _ =>
        raises w h c = None /\ answer w h c <> None
    | _ => True
    end.

(** ** Successful label creations *)

(** A store whose label creation always raises. *)
Definition label_refusing_world (data : list Entry) : World :=
  faulty_world data
    (fun c => match c with
              | LabelCreate _ _ => Some (mkExn OtherException "store error")
              | _ => None
              end).

(** Call [c], issued after the calls [h], neither raised nor came back
    without an object. *)
Definition creation_succeeds (w : World) (h : list Call) (c : Call) : bool :=
  match raises w h c, answer w h c with
  | None, Some _ => true
  | _, _ => false
  end.

(** How many label-creation calls for the tag [t], up to case, in the
    trace [cs] (newest first) succeeded. *)
Fixpoint successful_creations (w : World) (t : string) (cs : list Call) : nat :=
  match cs with
  | [] => 0
  | c :: h =>
      match c with
      | LabelCreate v _ =>
          if decide (lower v = lower t)
          then (if creation_succeeds w h c then 1 else 0)
          else 0
      | _ => 0
      end + successful_creations w t h
  end.

(** At most one creation of the tag [t] has succeeded, and if one has,
    the store holds the tag. *)
Definition once_succeeded (w : World) (t : string) (s : Store) : Prop :=
  successful_creations w t (calls s) <= 1 /\
  (successful_creations w t (calls s) = 1 -> has_label t s).

(** ** Reasoning about the monad *)

Lemma bind_run {A B} (m : M A) (k : A -> M B) (s : Store) :
  (m ≫= k) s =
  match m s with
  | (Ok a, s') => k a s'
  | (Raise e, s') => (Raise e, s')
  end.
Proof. reflexivity. Qed.

Lemma try_run {A} (m : M A) (h : Exn -> M A) (s : Store) :
  try_except m h s =
  match m s with
  | (Ok a, s') => (Ok a, s')
  | (Raise e, s') => h e s'
  end.
Proof. reflexivity. Qed.

(** ** The vocabulary extractor *)

Lemma lower_empty (d : string) : lower d = "" <-> d = "".
Proof. destruct d; simpl; split; intros H; congruence. Qed.

Lemma label_set_from (acc : gset string) (data : list Entry) :
  foldl (fun (labels : gset string) entry =>
           match description entry with
           | Some d => labels ∪ {[ lower d ]}
           | None => labels
           end) acc data
  = acc ∪ list_to_set (described data).
Proof.
  revert acc. induction data as [| e data IH]; intros acc; simpl.
  - set_solver.
  - rewrite IH. unfold described. simpl.
    destruct (description e) as [d |]; simpl; set_solver.
Qed.

Lemma label_set_described (data : list Entry) :
  label_set data = list_to_set (described data).
Proof. unfold label_set. rewrite label_set_from. set_solver. Qed.

Lemma elem_of_described (x : string) (data : list Entry) :
  x ∈ described data <->
  exists e d, e ∈ data /\ description e = Some d /\ x = lower d.
Proof.
  unfold described. rewrite list_elem_of_omap. split.
  - intros (e & He & Hx). destruct (description e) as [d |] eqn:Hd; simpl in Hx; [| discriminate].
    exists e, d. split; [exact He |]. split; congruence.
  - intros (e & d & He & Hd & ->). exists e. rewrite Hd. auto.
Qed.

Lemma spec_vocabulary_described (data : list Entry) :
  spec_vocabulary data = list_to_set (described data) ∖ {[ "" ]}.
Proof.
  apply set_eq. intros x. unfold spec_vocabulary.
  rewrite elem_of_difference, !elem_of_list_to_set, elem_of_described,
    list_elem_of_omap, elem_of_singleton.
  split.
  - intros (e & He & Hx). destruct (description e) as [d |] eqn:Hd; [| discriminate].
    destruct d as [| a d]; simpl in Hx; [discriminate |].
    injection Hx as <-. split; [| discriminate].
    exists e, (String a d). auto.
  - intros [(e & d & He & Hd & ->) Hne]. exists e. rewrite Hd.
    split; [exact He |].
    destruct d as [| a d]; [exfalso; apply Hne; reflexivity | reflexivity].
Qed.

(** C6 (as stated, refuted): a record whose description is the empty
    string puts the empty string in the vocabulary, while the set of
    lower-cased non-empty description values is empty. *)
Lemma extract_labels_keeps_empty_description :
  extract_labels [mkEntry (Some "1.2.3.4") (Some "")] = [""] /\
  spec_vocabulary [mkEntry (Some "1.2.3.4") (Some "")] = ∅ /\
  list_to_set (extract_labels [mkEntry (Some "1.2.3.4") (Some "")])
  <> spec_vocabulary [mkEntry (Some "1.2.3.4") (Some "")].
Proof.
  assert (E : extract_labels [mkEntry (Some "1.2.3.4") (Some "")] = [""])
    by (vm_compute; reflexivity).
  assert (V : spec_vocabulary [mkEntry (Some "1.2.3.4") (Some "")] = ∅)
    by reflexivity.
  rewrite E, V. split; [reflexivity |]. split; [reflexivity |].
  intros H. assert (Hin : "" ∈ (∅ : gset string)) by (rewrite <- H; set_solver).
  set_solver.
Qed.

(** C6 (amended): [extract_labels] returns, without duplicates, exactly
    the lower-cased description values of the records that have a
    description (the empty string included when a description is
    empty); apart from the empty string this is the set of lower-cased
    non-empty descriptions; records without a description contribute
    nothing, and permuting the records does not change the set. *)
Theorem extract_labels_vocabulary (data : list Entry) :
  NoDup (extract_labels data) /\
  (forall x, x ∈ extract_labels data <->
             exists e d, e ∈ data /\ description e = Some d /\ x = lower d) /\
  list_to_set (extract_labels data) ∖ {[ "" ]} = spec_vocabulary data /\
  (forall e, description e = None ->
             extract_labels (e :: data) = extract_labels data) /\
  (forall data', data ≡ₚ data' -> extract_labels data ≡ₚ extract_labels data').
Proof.
  unfold extract_labels. split; [apply NoDup_elements |].
  split; [| split; [| split]].
  - intros x. rewrite elem_of_elements, label_set_described, elem_of_list_to_set.
    apply elem_of_described.
  - rewrite spec_vocabulary_described, label_set_described.
    apply set_eq. intros x.
    rewrite !elem_of_difference, !elem_of_list_to_set, elem_of_elements,
      elem_of_list_to_set. reflexivity.
  - intros e He. rewrite !label_set_described. unfold described. simpl.
    rewrite He. reflexivity.
  - intros data' Hp. rewrite !label_set_described.
    assert (E : (list_to_set (described data) : gset string)
                = list_to_set (described data')).
    { apply set_eq. intros x. rewrite !elem_of_list_to_set, !elem_of_described.
      split; intros (e & d & He & Hd); exists e, d; split; auto.
      - rewrite <- Hp. exact He.
      - rewrite Hp. exact He. }
    rewrite E. reflexivity.
Qed.

(** ** The feed fetch *)

Lemma fetch_dshield_data_run (w : World) (s : Store) :
  fetch_dshield_data w s =
  match raises w (calls s) (HttpGet feed_url) with
  | None => (Ok (feed w (calls s)), record (HttpGet feed_url) s)
  | Some e =>
      (Ok [],
       record (LoggerError
                 (match exn_class e with
                  | RequestException => "Error fetching DShield data: "
                  | JSONDecodeError => "Error parsing DShield data: "
                  | OtherException => "Unexpected error fetching DShield data: "
                  end +:+ exn_msg e))
              (record (HttpGet feed_url) s))
  end.
Proof.
  unfold fetch_dshield_data. rewrite try_run. unfold http_get_json.
  destruct (raises w (calls s) (HttpGet feed_url)) as [[[] msg] |]; reflexivity.
Qed.

(** C10 (as stated, refuted): a feed that cannot be reached and a feed
    that answers with an empty list give the caller the same value, the
    empty list, and neither raises. *)
Lemma fetch_failure_looks_like_empty_feed :
  (fetch_dshield_data unreachable_world empty_store).1 = Ok [] /\
  (fetch_dshield_data (reliable_world []) empty_store).1 = Ok [] /\
  (fetch_dshield_data unreachable_world empty_store).1
  = (fetch_dshield_data (reliable_world []) empty_store).1.
Proof. split; [reflexivity |]. split; reflexivity. Qed.

(** C10 (amended): [fetch_dshield_data] never raises.  When the request
    and the parse succeed it returns the full parsed record list; on a
    network or parse failure it logs one error and returns the empty
    list, the value an empty feed gives. *)
Theorem fetch_dshield_data_outcome (w : World) (s : Store) :
  match raises w (calls s) (HttpGet feed_url) with
  | None =>
      fetch_dshield_data w s = (Ok (feed w (calls s)), record (HttpGet feed_url) s)
  | Some e =>
      (fetch_dshield_data w s).1 = Ok [] /\
      exists msg,
        calls (fetch_dshield_data w s).2
        = LoggerError msg :: HttpGet feed_url :: calls s
  end.
Proof.
  rewrite fetch_dshield_data_run.
  destruct (raises w (calls s) (HttpGet feed_url)) as [e |]; [| reflexivity].
  split; [reflexivity |]. eexists. reflexivity.
Qed.

(** ** The run *)

Lemma run_no_data (w : World) (self : Connector) (test_mode : bool) (s : Store) :
  (fetch_dshield_data w s).1 = Ok [] ->
  run w self test_mode s
  = (Ok tt, record (LoggerError "No data received from DShield")
                   (fetch_dshield_data w s).2).
Proof.
  intros H. unfold run. rewrite try_run, bind_run.
  destruct (fetch_dshield_data w s) as [r s1]. simpl in H. subst r. reflexivity.
Qed.

(** C9: when the fetch fails or the feed is empty, [run] stops after
    the fetch: it returns normally, and all it adds to the trace is the
    HTTP request followed by error-log lines, so no observable is
    created, nothing is published and no file is written. *)
Theorem run_stops_without_data (w : World) (self : Connector) (test_mode : bool)
    (s : Store) :
  raises w (calls s) (HttpGet feed_url) <> None \/ feed w (calls s) = [] ->
  let r := run w self test_mode s in
  r.1 = Ok tt /\
  store_labels r.2 = store_labels s /\
  (exists logs, calls r.2 = (logs ++ HttpGet feed_url :: calls s)%list /\
                Forall is_logger_error logs) /\
  (forall c, c ∈ calls r.2 -> c ∈ calls s \/ store_call c = false) /\
  (forall f o, FileWrite f o ∈ calls r.2 -> FileWrite f o ∈ calls s).
Proof.
  intros H r.
  assert (E : (fetch_dshield_data w s).1 = Ok []).
  { rewrite fetch_dshield_data_run.
    destruct (raises w (calls s) (HttpGet feed_url)) as [e |]; [reflexivity |].
    destruct H as [H | H]; [congruence | simpl; rewrite H; reflexivity]. }
  assert (L : exists logs,
             calls r.2 = (logs ++ HttpGet feed_url :: calls s)%list /\
             Forall is_logger_error logs).
  { subst r. rewrite (run_no_data _ _ _ _ E), fetch_dshield_data_run.
    destruct (raises w (calls s) (HttpGet feed_url)) as [e |].
    - eexists [_; _]. split; [reflexivity |].
      repeat constructor; eexists; reflexivity.
    - eexists [_]. split; [reflexivity |].
      repeat constructor; eexists; reflexivity. }
  split; [| split; [| split; [exact L | split]]].
  - subst r. rewrite (run_no_data _ _ _ _ E). reflexivity.
  - subst r. rewrite (run_no_data _ _ _ _ E), fetch_dshield_data_run.
    destruct (raises w (calls s) (HttpGet feed_url)); reflexivity.
  - destruct L as (logs & -> & F). intros c Hc.
    rewrite elem_of_app, elem_of_cons in Hc.
    destruct Hc as [Hc | [-> | Hc]]; [| right; reflexivity | left; exact Hc].
    rewrite Forall_forall in F. destruct (F c Hc) as [msg ->]. right. reflexivity.
  - destruct L as (logs & -> & F). intros f o Hc.
    rewrite elem_of_app, elem_of_cons in Hc.
    destruct Hc as [Hc | [Hc | Hc]]; [| discriminate | exact Hc].
    rewrite Forall_forall in F. destruct (F _ Hc) as [msg Hm]. discriminate.
Qed.

Lemma run_stops_without_data_witness :
  feed (reliable_world []) (calls empty_store) = [] /\
  (run (reliable_world []) (mkConnector (Some "identity--DShield")) false empty_store).1
  = Ok tt.
Proof.
  split; [reflexivity |].
  apply (run_stops_without_data (reliable_world [])
           (mkConnector (Some "identity--DShield")) false empty_store).
  right. reflexivity.
Defined.

(** ** The entry point *)

(** C4 (the code departs from the claim): [main] gives the same result
    and the same trace with and without the test-mode flag, and a
    test-mode run on a one-record feed creates the organization, its
    external reference, the observable and its labels in the store. *)
Theorem main_test_mode_reaches_store :
  (forall w debug s, main w (mkArgs true debug) s = main w (mkArgs false debug) s) /\
  trace (main (reliable_world [mkEntry (Some "1.2.3.4") (Some "botnet")])
           (mkArgs true false) empty_store)
  = [ExternalReferenceCreate "dshield.org" "https://dshield.org/";
     IdentityCreate "DShield" "DShield Intel Feed importer"
       ["external-reference--dshield.org"];
     HttpGet feed_url;
     ExternalReferenceCreate "dshield.org" feed_url;
     ObservableCreate "IPv4-Addr.value" "1.2.3.4"
       ["external-reference--dshield.org"] "identity--DShield" "IPv4-Addr";
     LabelList "dshield"; LabelCreate "dshield" "#ffa500"; Sleep;
     AddLabel "observable--1.2.3.4" "label--dshield";
     LabelList "botnet"; LabelCreate "botnet" "#ffa500"; Sleep;
     AddLabel "observable--1.2.3.4" "label--botnet";
     FileWrite "dshield_export.json"
       (mkOutput ["botnet"]
          [mkObj "ipv4-addr" "1.2.3.4" ["dshield"; "botnet"]])].
Proof.
  split.
  - intros w debug s. reflexivity.
  - vm_compute. reflexivity.
Qed.

(** ** Label resolution *)

Lemma find_label_none (labels : list Label) (t : string) :
  find_label labels t = None <->
  forall l, l ∈ labels -> lower (lbl_value l) <> lower t.
Proof.
  induction labels as [| l labels IH]; simpl.
  - split; [intros _ l Hl; inversion Hl | reflexivity].
  - destruct (String.eqb_spec (lower (lbl_value l)) (lower t)) as [E | N].
    + split; [discriminate |]. intros H. exfalso. apply (H l); [left | exact E].
    + rewrite IH. split.
      * intros H l' Hl'. apply elem_of_cons in Hl'. destruct Hl' as [-> | Hl']; auto.
      * intros H l' Hl'. apply H. right. exact Hl'.
Qed.

Lemma find_label_some (labels : list Label) (t i : string) :
  find_label labels t = Some i ->
  exists l, l ∈ labels /\ lower (lbl_value l) = lower t /\ lbl_id l = i.
Proof.
  induction labels as [| l labels IH]; simpl; [discriminate |].
  destruct (String.eqb_spec (lower (lbl_value l)) (lower t)) as [E | N].
  - intros [= <-]. exists l. split; [left | auto].
  - intros H. destruct (IH H) as (l' & Hl' & Hm). exists l'. split; [right; exact Hl' | exact Hm].
Qed.

Lemma get_label_run (w : World) (t color : string) (s : Store) :
  get_label w t color s =
  match raises w (calls s) (LabelList t) with
  | Some e => (Raise e, record (LabelList t) s)
  | None =>
      match find_label
              (filter (fun l => search_match w t (lbl_value l) = true) (store_labels s)) t
      with
      | Some i => (Ok i, record (LabelList t) s)
      | None =>
          match label_create w t color (record (LabelList t) s) with
          | (Ok new_label, s') => get_id (lbl_id <$> new_label) s'
          | (Raise e, s') => (Raise e, s')
          end
      end
  end.
Proof.
  unfold get_label. rewrite bind_run. unfold label_list.
  destruct (raises w (calls s) (LabelList t)); [reflexivity |].
  destruct (find_label _ t); reflexivity.
Qed.

(** What a resolution adds to the trace: the search, then possibly the
    creation. *)
Lemma get_label_calls (w : World) (t color : string) (s : Store) :
  calls (get_label w t color s).2 = LabelList t :: calls s \/
  calls (get_label w t color s).2 = LabelCreate t color :: LabelList t :: calls s.
Proof.
  rewrite get_label_run.
  destruct (raises w (calls s) (LabelList t)); [left; reflexivity |].
  destruct (find_label _ t); [left; reflexivity |].
  right. unfold label_create. simpl.
  destruct (raises w (LabelList t :: calls s) (LabelCreate t color)); [reflexivity |].
  destruct (answer w (LabelList t :: calls s) (LabelCreate t color)); reflexivity.
Qed.

Lemma get_label_existing (w : World) (t color : string) (s : Store) :
  honest_search w -> has_label t s ->
  let r := get_label w t color s in
  calls r.2 = LabelList t :: calls s /\
  store_labels r.2 = store_labels s /\
  match r.1 with
  | Ok i => exists l, l ∈ store_labels s /\ lower (lbl_value l) = lower t /\ lbl_id l = i
  | Raise e => raises w (calls s) (LabelList t) = Some e
  end.
Proof.
  intros Hs (l & Hl & Hm) r. subst r. rewrite get_label_run.
  destruct (raises w (calls s) (LabelList t)) as [e |]; [simpl; auto |].
  destruct (find_label _ t) as [i |] eqn:F.
  - simpl. split; [reflexivity |]. split; [reflexivity |].
    destruct (find_label_some _ _ _ F) as (l' & Hl' & Hm' & Hi).
    exists l'. apply list_elem_of_filter in Hl'. destruct Hl' as [_ Hl']. auto.
  - exfalso. rewrite find_label_none in F. apply (F l); [| exact Hm].
    apply list_elem_of_filter. split; [| exact Hl]. apply Hs. exact Hm.
Qed.

Lemma get_label_trace (w : World) (t color : string) (s : Store) :
  exists new,
    calls (get_label w t color s).2 = (rev new ++ calls s)%list /\
    searched new = [t] /\
    (created new = [] \/ created new = [t]) /\
    (find_label
       (filter (fun l => search_match w t (lbl_value l) = true) (store_labels s)) t
     <> None -> created new = []).
Proof.
  pose proof (get_label_run w t color s) as R.
  destruct (get_label_calls w t color s) as [E | E].
  - exists [LabelList t]. split; [exact E |]. split; [reflexivity |].
    split; [left; reflexivity | reflexivity].
  - exists [LabelList t; LabelCreate t color]. split; [exact E |].
    split; [reflexivity |]. split; [right; reflexivity |].
    intros F. exfalso. rewrite R in E.
    destruct (raises w (calls s) (LabelList t)).
    + simpl in E. injection E as E. discriminate.
    + destruct (find_label _ t); [| congruence].
      simpl in E. injection E as E. discriminate.
Qed.

(** C3 (as stated, refuted): two records with an IP make the run search
    the store for the base tag twice. *)
Lemma base_tag_searched_for_each_record :
  searched
    (trace (main (reliable_world [mkEntry (Some "1.1.1.1") None;
                                  mkEntry (Some "2.2.2.2") None])
              (mkArgs false false) empty_store))
  = ["dshield"; "dshield"].
Proof. vm_compute. reflexivity. Qed.


(** ** Attaching labels *)

Lemma tag_call_mono (oid v : string) (labels labels' : list string) (c : Call) :
  (forall l, l ∈ labels -> l ∈ labels') ->
  tag_call oid v labels c -> tag_call oid v labels' c.
Proof.
  intros H. destruct c; simpl; auto.
  - intros [? ?]. auto.
  - intros (l & e & Hl & ->). exists l, e. auto.
Qed.

(** One label: the attempt never raises, searches the store for the
    label once, and issues only calls about this label and this
    observable. *)
Lemma add_one_label_spec (w : World) (oid v label : string) (s : Store) :
  (add_one_label w oid v label s).1 = Ok tt /\
  exists new,
    calls (add_one_label w oid v label s).2 = (rev new ++ calls s)%list /\
    searched new = [label] /\
    Forall (tag_call oid v [label]) new.
Proof.
  assert (In1 : label ∈ [label]) by (left).
  unfold add_one_label, attach_label. rewrite try_run, bind_run.
  pose proof (get_label_trace w label default_color s) as (n0 & E0 & S0 & _).
  assert (T0 : Forall (tag_call oid v [label]) n0).
  { destruct (get_label_calls w label default_color s) as [E | E];
      rewrite E0 in E.
    - apply (app_inv_tail _ _ [LabelList label]) in E.
      apply (f_equal (@rev Call)) in E. rewrite rev_involutive in E. subst n0.
      repeat constructor; exact In1.
    - apply (app_inv_tail _ _ [LabelCreate label default_color; LabelList label]) in E.
      apply (f_equal (@rev Call)) in E. rewrite rev_involutive in E. subst n0.
      repeat constructor; simpl; auto. }
  destruct (get_label w label default_color s) as [[i | e] s1]; simpl in E0.
  - destruct (truthy i).
    + rewrite bind_run. simpl. unfold call. simpl.
      destruct (raises w (Sleep :: calls s1) (AddLabel oid i)) as [e |]; simpl.
      * split; [reflexivity |].
        exists (n0 ++ [Sleep; AddLabel oid i; HelperLogError (label_failure label v e); Sleep])%list.
        split; [rewrite rev_app_distr, E0; reflexivity |].
        split; [unfold searched in *; rewrite omap_app, S0; reflexivity |].
        apply Forall_app. split; [exact T0 |].
        repeat constructor; simpl; auto. exists label, e. auto.
      * split; [reflexivity |].
        exists (n0 ++ [Sleep; AddLabel oid i])%list.
        split; [rewrite rev_app_distr, E0; reflexivity |].
        split; [unfold searched in *; rewrite omap_app, S0; reflexivity |].
        apply Forall_app. split; [exact T0 |].
        repeat constructor; simpl; auto.
    + simpl. split; [reflexivity |]. exists n0. auto.
  - simpl. split; [reflexivity |].
    exists (n0 ++ [HelperLogError (label_failure label v e); Sleep])%list.
    split; [rewrite rev_app_distr, E0; reflexivity |].
    split; [unfold searched in *; rewrite omap_app, S0; reflexivity |].
    apply Forall_app. split; [exact T0 |].
    repeat constructor; simpl; auto. exists label, e. auto.
Qed.

(** All labels: the loop never raises and searches the store for every
    label, in order. *)
Lemma add_labels_spec (w : World) (oid v : string) (labels : list string) (s : Store) :
  (add_labels w oid v labels s).1 = Ok tt /\
  exists new,
    calls (add_labels w oid v labels s).2 = (rev new ++ calls s)%list /\
    searched new = labels /\
    Forall (tag_call oid v labels) new.
Proof.
  revert s. induction labels as [| label rest IH]; intros s.
  - simpl. split; [reflexivity |]. exists []. repeat split. constructor.
  - simpl. rewrite bind_run.
    destruct (add_one_label_spec w oid v label s) as (R1 & n1 & E1 & S1 & T1).
    destruct (add_one_label w oid v label s) as [r1 s1]. simpl in R1, E1. subst r1.
    destruct (IH s1) as (R2 & n2 & E2 & S2 & T2).
    split; [exact R2 |].
    exists (n1 ++ n2)%list.
    split; [rewrite rev_app_distr, E2, E1; rewrite <- app_assoc; reflexivity |].
    split; [unfold searched in *; rewrite omap_app, S1, S2; reflexivity |].
    apply Forall_app. split.
    + eapply Forall_impl; [exact T1 |]. intros c. apply tag_call_mono.
      intros l Hl. apply list_elem_of_singleton in Hl. subst l. left.
    + eapply Forall_impl; [exact T2 |]. intros c. apply tag_call_mono.
      intros l Hl. right. exact Hl.
Qed.

Lemma create_observable_run (w : World) (self : Connector)
    (k v d t ref : string) (labels : list string) (s : Store) :
  create_observable w self k v d t ref labels s =
  match organization self with
  | None => (Raise TypeError_None, s)
  | Some org =>
      let c := ObservableCreate k v [ref] org t in
      match raises w (calls s) c with
      | Some e => (Raise e, record c s)
      | None =>
          match answer w (calls s) c with
          | None => (Ok None, record c s)
          | Some oid => (Ok (Some oid), (add_labels w oid v labels (record c s)).2)
          end
      end
  end.
Proof.
  unfold create_observable.
  destruct (organization self) as [org |]; [| reflexivity].
  rewrite bind_run. cbv [get_id mret M_ret]. rewrite bind_run. unfold create.
  cbv zeta.
  destruct (raises w (calls s) _) as [e |]; [reflexivity |].
  destruct (answer w (calls s) _) as [oid |].
  - rewrite bind_run. destruct labels as [| l rest]; [reflexivity |].
    destruct (add_labels_spec w oid v (l :: rest)
                (record (ObservableCreate k v [ref] org t) s)) as [R _].
    destruct (add_labels w oid v (l :: rest) _) as [r s1]. simpl in R. subst r.
    reflexivity.
  - rewrite bind_run. destruct labels; reflexivity.
Qed.

Lemma process_entry_run (w : World) (self : Connector) (ext : option string)
    (e : Entry) (objects : list Obj) (s : Store) :
  process_entry w self ext e objects s =
  match ip e with
  | None => (Ok objects, s)
  | Some v =>
      match ext with
      | None => (Raise TypeError_None, s)
      | Some ref =>
          match create_observable w self "IPv4-Addr.value" v
                  ("DShield Intel Feed entry for " +:+ v) "IPv4-Addr" ref
                  (entry_labels e) s
          with
          | (Ok (Some _), s') =>
              (Ok (objects ++ [mkObj "ipv4-addr" v (entry_labels e)])%list, s')
          | (Ok None, s') => (Ok objects, s')
          | (Raise x, s') => (Raise x, s')
          end
      end
  end.
Proof.
  unfold process_entry. destruct (ip e) as [v |]; [| reflexivity].
  destruct ext as [ref |]; [| reflexivity].
  cbv zeta. rewrite bind_run. cbv [get_id mret M_ret]. rewrite bind_run.
  destruct (create_observable _ _ _ _ _ _ _ _ s) as [[[oid |] | x] s']; reflexivity.
Qed.

Lemma tag_calls_observe_nothing (oid v : string) (labels : list string)
    (new : list Call) :
  Forall (tag_call oid v labels) new -> observed new = [].
Proof.
  induction 1 as [| c new Hc _ IH]; [reflexivity |].
  unfold observed in *. destruct c; simpl in *; auto. contradiction.
Qed.

(** ** Records *)

Lemma process_entry_some (w : World) (self : Connector)
    (ext : option string) (e : Entry) (objects : list Obj) (s : Store) (v : string) :
  ip e = Some v ->
  let r := process_entry w self ext e objects s in
  (exists new,
     calls r.2 = (rev new ++ calls s)%list /\
     (observed new = [] \/ observed new = [v]) /\
     (organization self <> None -> ext <> None -> observed new = [v])) /\
  (forall objects',
     r.1 = Ok objects' ->
     objects' = objects \/
     objects' = (objects ++ [mkObj "ipv4-addr" v (entry_labels e)])%list).
Proof.
  intros Hip r. subst r. rewrite process_entry_run, Hip.
  destruct ext as [ref |].
  2:{ split; [| intros ? [=]]. exists []. split; [reflexivity |].
      split; [left; reflexivity | intros _ H; congruence]. }
  rewrite create_observable_run.
  destruct (organization self) as [org |].
  2:{ split; [| intros ? [=]]. exists []. split; [reflexivity |].
      split; [left; reflexivity | intros H; congruence]. }
  cbv zeta.
  destruct (raises w (calls s) _) as [x |].
  { split; [| intros ? [=]]. eexists [_]. split; [reflexivity |].
    split; [right; reflexivity | reflexivity]. }
  destruct (answer w (calls s) _) as [oid |].
  - split; [| intros ? [= <-]; right; reflexivity].
    destruct (add_labels_spec w oid v (entry_labels e)
                (record (ObservableCreate "IPv4-Addr.value" v [ref] org "IPv4-Addr") s))
      as (_ & new & E & _ & T).
    exists (ObservableCreate "IPv4-Addr.value" v [ref] org "IPv4-Addr" :: new).
    split; [etrans; [exact E |]; simpl; rewrite <- app_assoc; reflexivity |].
    assert (O : observed (ObservableCreate "IPv4-Addr.value" v [ref] org "IPv4-Addr" :: new) = [v]).
    { change (v :: observed new = [v]). rewrite (tag_calls_observe_nothing _ _ _ _ T).
      reflexivity. }
    split; [right; exact O | intros _ _; exact O].
  - split; [| intros ? [= <-]; left; reflexivity].
    eexists [_]. split; [reflexivity |].
    split; [right; reflexivity | reflexivity].
Qed.

(** ** The publishing loop and the run *)

Lemma save_to_json_run (w : World) (out : Output) (f : string) (s : Store) :
  save_to_json w out f s =
  (Ok tt,
   match raises w (calls s) (FileWrite f out) with
   | Some e =>
       record (LoggerError ("Error saving data to " +:+ f +:+ ": " +:+ exn_msg e))
              (record (FileWrite f out) s)
   | None => record (FileWrite f out) s
   end).
Proof.
  unfold save_to_json. rewrite try_run. unfold call.
  destruct (raises w (calls s) (FileWrite f out)); reflexivity.
Qed.

Lemma run_run (w : World) (self : Connector) (test_mode : bool) (s : Store) :
  run w self test_mode s =
  match fetch_dshield_data w s with
  | (Ok [], s1) => (Ok tt, record (LoggerError "No data received from DShield") s1)
  | (Ok (e :: d), s1) =>
      match create_opencti_objects w self (e :: d) test_mode s1 with
      | (Ok out, s2) => (Ok tt, (save_to_json w out "dshield_export.json" s2).2)
      | (Raise x, s2) =>
          (Ok tt, record (LoggerError ("Error in connector run: " +:+ exn_msg x)) s2)
      end
  | (Raise x, s1) =>
      (Ok tt, record (LoggerError ("Error in connector run: " +:+ exn_msg x)) s1)
  end.
Proof.
  unfold run. rewrite try_run, bind_run.
  destruct (fetch_dshield_data w s) as [[[| e d] | x] s1]; try reflexivity.
  rewrite bind_run.
  destruct (create_opencti_objects w self (e :: d) test_mode s1) as [[out | x] s2];
    [| reflexivity].
  rewrite save_to_json_run. reflexivity.
Qed.

Lemma run_never_raises (w : World) (self : Connector) (test_mode : bool) (s : Store) :
  (run w self test_mode s).1 = Ok tt.
Proof.
  rewrite run_run.
  destruct (fetch_dshield_data w s) as [[[| e d] | x] s1]; try reflexivity.
  destruct (create_opencti_objects w self (e :: d) test_mode s1) as [[out | x] s2];
    reflexivity.
Qed.

(** C1 (as stated, refuted): when the creation call raises for the first
    of two records, the second record is never submitted and no file is
    written; the run ends with one error-log line. *)
Lemma creation_exception_ends_the_run :
  trace (main (rejecting_world [mkEntry (Some "1.1.1.1") None;
                                mkEntry (Some "2.2.2.2") None])
           (mkArgs false false) empty_store)
  = [ExternalReferenceCreate "dshield.org" "https://dshield.org/";
     IdentityCreate "DShield" "DShield Intel Feed importer"
       ["external-reference--dshield.org"];
     HttpGet feed_url;
     ExternalReferenceCreate "dshield.org" feed_url;
     ObservableCreate "IPv4-Addr.value" "1.1.1.1"
       ["external-reference--dshield.org"] "identity--DShield" "IPv4-Addr";
     LoggerError "Error in connector run: store error"].
Proof. vm_compute. reflexivity. Qed.

(** C1 (amended): when the creation call returns no observable for a
    record, that record alone is dropped: nothing is published for it
    and the loop goes on with the next record.  When the creation call
    raises, the exception is not caught per record: it ends the loop,
    [run] catches it, logs it and returns without writing the file.
    [run] never raises, and it writes the file whenever
    [create_opencti_objects] returns. *)
Theorem observable_creation_failure (w : World) (self : Connector)
    (ext : option string) (e : Entry) (rest : list Entry) (objects : list Obj)
    (s : Store) (v ref org : string) :
  ip e = Some v -> ext = Some ref -> organization self = Some org ->
  let c := ObservableCreate "IPv4-Addr.value" v [ref] org "IPv4-Addr" in
  (raises w (calls s) c = None -> answer w (calls s) c = None ->
   process_entries w self ext (e :: rest) objects s
   = process_entries w self ext rest objects (record c s)) /\
  (forall x, raises w (calls s) c = Some x ->
             process_entries w self ext (e :: rest) objects s = (Raise x, record c s)) /\
  (forall test_mode s0, (run w self test_mode s0).1 = Ok tt) /\
  (forall test_mode s0 data x s2,
     (fetch_dshield_data w s0).1 = Ok data -> data <> [] ->
     create_opencti_objects w self data test_mode (fetch_dshield_data w s0).2
     = (Raise x, s2) ->
     (run w self test_mode s0).2
     = record (LoggerError ("Error in connector run: " +:+ exn_msg x)) s2) /\
  (forall test_mode s0 data out s2,
     (fetch_dshield_data w s0).1 = Ok data -> data <> [] ->
     create_opencti_objects w self data test_mode (fetch_dshield_data w s0).2
     = (Ok out, s2) ->
     FileWrite "dshield_export.json" out ∈ calls (run w self test_mode s0).2).
Proof.
  intros Hip Hext Horg c.
  split; [| split; [| split; [| split]]].
  - intros Hr Ha. simpl. rewrite bind_run, process_entry_run, Hip, Hext.
    rewrite create_observable_run, Horg. cbv zeta. fold c. rewrite Hr, Ha.
    reflexivity.
  - intros x Hr. simpl. rewrite bind_run, process_entry_run, Hip, Hext.
    rewrite create_observable_run, Horg. cbv zeta. fold c. rewrite Hr.
    reflexivity.
  - intros test_mode s0. apply run_never_raises.
  - intros test_mode s0 data x s2 Hf Hd Hc. rewrite run_run.
    destruct (fetch_dshield_data w s0) as [r1 s1]. simpl in Hf, Hc. subst r1.
    destruct data as [| e0 d]; [congruence |]. rewrite Hc. reflexivity.
  - intros test_mode s0 data out s2 Hf Hd Hc. rewrite run_run.
    destruct (fetch_dshield_data w s0) as [r1 s1]. simpl in Hf, Hc. subst r1.
    destruct data as [| e0 d]; [congruence |]. rewrite Hc, save_to_json_run.
    simpl. destruct (raises w (calls s2) _); simpl.
    + right. left.
    + left.
Qed.

Lemma observable_creation_failure_witness :
  process_entries (silent_world []) (mkConnector (Some "org")) (Some "ref")
    [mkEntry (Some "1.1.1.1") None; mkEntry (Some "2.2.2.2") None] [] empty_store
  = process_entries (silent_world []) (mkConnector (Some "org")) (Some "ref")
      [mkEntry (Some "2.2.2.2") None] []
      (record (ObservableCreate "IPv4-Addr.value" "1.1.1.1" ["ref"] "org" "IPv4-Addr")
         empty_store).
Proof.
  apply (observable_creation_failure (silent_world [])
           (mkConnector (Some "org")) (Some "ref")
           (mkEntry (Some "1.1.1.1") None) [mkEntry (Some "2.2.2.2") None] []
           empty_store "1.1.1.1" "ref" "org");
    reflexivity.
Defined.

(** ** What is submitted and what is published *)

Lemma observed_app (l1 l2 : list Call) :
  observed (l1 ++ l2) = (observed l1 ++ observed l2)%list.
Proof. unfold observed. apply omap_app. Qed.

Lemma process_entries_spec (w : World) (self : Connector) (ext : option string)
    (data : list Entry) (objects : list Obj) (s : Store) :
  let r := process_entries w self ext data objects s in
  (exists new,
     calls r.2 = (rev new ++ calls s)%list /\
     forall v, v ∈ observed new -> has_ip data v) /\
  (forall objects' o,
     r.1 = Ok objects' -> o ∈ objects' ->
     o ∈ objects \/ has_ip data (obj_value o)).
Proof.
  revert objects s. induction data as [| e data IH]; intros objects s r; subst r.
  - simpl. split.
    + exists []. split; [reflexivity |]. intros v Hv. inversion Hv.
    + intros objects' o [= <-] Ho. left. exact Ho.
  - simpl. rewrite bind_run.
    assert (Hstep :
      (exists new,
         calls (process_entry w self ext e objects s).2 = (rev new ++ calls s)%list /\
         forall v, v ∈ observed new -> ip e = Some v) /\
      (forall objects' o,
         (process_entry w self ext e objects s).1 = Ok objects' -> o ∈ objects' ->
         o ∈ objects \/ ip e = Some (obj_value o))).
    { destruct (ip e) as [v |] eqn:Hip.
      - destruct (process_entry_some w self ext e objects s v Hip)
          as [(new & E & O & _) Hres].
        split.
        + exists new. split; [exact E |]. intros v' Hv'.
          destruct O as [O | O]; rewrite O in Hv'; [inversion Hv' |].
          apply list_elem_of_singleton in Hv'. congruence.
        + intros objects' o Hr Ho. destruct (Hres objects' Hr) as [-> | ->].
          * left. exact Ho.
          * apply elem_of_app in Ho. destruct Ho as [Ho | Ho]; [left; exact Ho |].
            apply list_elem_of_singleton in Ho. subst o. right. reflexivity.
      - rewrite process_entry_run, Hip. split.
        + exists []. split; [reflexivity |]. intros v Hv. inversion Hv.
        + intros objects' o [= <-] Ho. left. exact Ho. }
    destruct Hstep as [(n1 & E1 & O1) R1].
    destruct (process_entry w self ext e objects s) as [[objects1 | x] s1];
      simpl in E1.
    + destruct (IH objects1 s1) as [(n2 & E2 & O2) R2].
      split.
      * exists (n1 ++ n2)%list.
        split; [rewrite rev_app_distr, E2, E1, <- app_assoc; reflexivity |].
        intros v Hv. rewrite observed_app in Hv. apply elem_of_app in Hv.
        destruct Hv as [Hv | Hv].
        -- exists e. split; [left | auto].
        -- destruct (O2 v Hv) as (e' & He' & Hv'). exists e'. split; [right |]; auto.
      * intros objects' o Hr Ho.
        destruct (R2 objects' o Hr Ho) as [H | (e' & He' & Hv')].
        -- destruct (R1 objects1 o eq_refl H) as [H1 | H1]; [left; exact H1 |].
           right. exists e. split; [left | exact H1].
        -- right. exists e'. split; [right |]; auto.
    + split.
      * exists n1. split; [exact E1 |]. intros v Hv.
        exists e. split; [left | auto].
      * intros objects' o [=].
Qed.

(** C8 (as stated, refuted): a record whose [ip] is the empty string is
    submitted to the store and recorded in the written summary with an
    empty value. *)
Lemma empty_ip_is_published :
  trace (run (reliable_world [mkEntry (Some "") None])
           (mkConnector (Some "identity--DShield")) false empty_store)
  = [HttpGet feed_url;
     ExternalReferenceCreate "dshield.org" feed_url;
     ObservableCreate "IPv4-Addr.value" "" ["external-reference--dshield.org"]
       "identity--DShield" "IPv4-Addr";
     LabelList "dshield"; LabelCreate "dshield" "#ffa500"; Sleep;
     AddLabel "observable--" "label--dshield";
     FileWrite "dshield_export.json"
       (mkOutput [] [mkObj "ipv4-addr" "" ["dshield"]])].
Proof. vm_compute. reflexivity. Qed.

(** C8 (amended): every observable submitted to the store and every
    published object carries the value of the [ip] key of some record of
    the feed; records without an [ip] key are skipped.  The value is not
    checked to be non-empty. *)
Theorem submitted_values_come_from_ip_keys (w : World) (self : Connector)
    (data : list Entry) (test_mode : bool) (s : Store) :
  let r := create_opencti_objects w self data test_mode s in
  (exists new,
     calls r.2 = (rev new ++ calls s)%list /\
     forall v, v ∈ observed new -> has_ip data v) /\
  (forall out o, r.1 = Ok out -> o ∈ out_objects out -> has_ip data (obj_value o)) /\
  (forall ext e objects s1,
     ip e = None -> process_entry w self ext e objects s1 = (Ok objects, s1)).
Proof.
  intros r. subst r. unfold create_opencti_objects. cbv zeta.
  rewrite bind_run. unfold create.
  split; [| split].
  - destruct (raises w (calls s) _) as [x |].
    + eexists [_]. split; [reflexivity |]. intros v Hv.
      apply list_elem_of_singleton in Hv || inversion Hv.
    + rewrite bind_run.
      destruct (process_entries_spec w self
                  (answer w (calls s) (ExternalReferenceCreate "dshield.org" feed_url))
                  data [] (record (ExternalReferenceCreate "dshield.org" feed_url) s))
        as [(new & E & O) _].
      exists (ExternalReferenceCreate "dshield.org" feed_url :: new).
      split.
      * destruct (process_entries _ _ _ _ _ _) as [[objs | x] s1];
          simpl in *; rewrite E, <- app_assoc; reflexivity.
      * intros v Hv. apply O. exact Hv.
  - intros out o Hr Ho.
    destruct (raises w (calls s) _) as [x |]; [discriminate |].
    rewrite bind_run in Hr.
    destruct (process_entries_spec w self
                (answer w (calls s) (ExternalReferenceCreate "dshield.org" feed_url))
                data [] (record (ExternalReferenceCreate "dshield.org" feed_url) s))
      as [_ R].
    destruct (process_entries _ _ _ _ _ _) as [[objs | x] s1]; [| discriminate].
    simpl in Hr. injection Hr as <-. simpl in Ho.
    destruct (R objs o eq_refl Ho) as [H | H]; [inversion H | exact H].
  - intros ext e objects s1 Hip. rewrite process_entry_run, Hip. reflexivity.
Qed.

(** ** Properties kept by the whole run *)

Lemma stable_ret {A} (I : Store -> Prop) (a : A) : stable I (mret a).
Proof. intros s H. exact H. Qed.

Lemma stable_raise {A} (I : Store -> Prop) (e : Exn) : stable I (@raise A e).
Proof. intros s H. exact H. Qed.

Lemma stable_bind {A B} (I : Store -> Prop) (m : M A) (k : A -> M B) :
  stable I m -> (forall a, stable I (k a)) -> stable I (m ≫= k).
Proof.
  intros Hm Hk s H. rewrite bind_run. specialize (Hm s H).
  destruct (m s) as [[a | e] s1]; simpl in Hm; [apply Hk |]; exact Hm.
Qed.

Lemma stable_try {A} (I : Store -> Prop) (m : M A) (h : Exn -> M A) :
  stable I m -> (forall e, stable I (h e)) -> stable I (try_except m h).
Proof.
  intros Hm Hh s H. rewrite try_run. specialize (Hm s H).
  destruct (m s) as [[a | e] s1]; simpl in Hm; [| apply Hh]; exact Hm.
Qed.

Lemma stable_get_id (I : Store -> Prop) (x : option string) : stable I (get_id x).
Proof. destruct x; [apply stable_ret | apply stable_raise]. Qed.

Section Stability.
Variable w : World.
Variable I : Store -> Prop.

(** [I] does not look at calls other than label creations, and label
    resolution keeps it. *)
Hypothesis I_record : forall c s, created [c] = [] -> I s -> I (record c s).
Hypothesis I_get_label : forall t color, stable I (get_label w t color).

Lemma stable_emit (c : Call) : created [c] = [] -> stable I (emit c).
Proof. intros Hc s H. apply I_record; assumption. Qed.

Lemma stable_call (c : Call) : created [c] = [] -> stable I (call w c).
Proof.
  intros Hc s H. unfold call.
  destruct (raises w (calls s) c); apply I_record; assumption.
Qed.

Lemma stable_create (c : Call) : created [c] = [] -> stable I (create w c).
Proof.
  intros Hc s H. unfold create.
  destruct (raises w (calls s) c); apply I_record; assumption.
Qed.

Lemma stable_add_one_label (oid v label : string) :
  stable I (add_one_label w oid v label).
Proof.
  unfold add_one_label, attach_label. apply stable_try.
  - apply stable_bind; [apply I_get_label |]. intros i.
    destruct (truthy i); [| apply stable_ret].
    apply stable_bind; [apply stable_emit; reflexivity |].
    intros _. apply stable_call. reflexivity.
  - intros e. apply stable_bind; [apply stable_emit; reflexivity |].
    intros _. apply stable_emit. reflexivity.
Qed.

Lemma stable_add_labels (oid v : string) (labels : list string) :
  stable I (add_labels w oid v labels).
Proof.
  induction labels as [| label rest IH]; simpl; [apply stable_ret |].
  apply stable_bind; [apply stable_add_one_label | intros _; exact IH].
Qed.

Lemma stable_create_observable (self : Connector) (k v d t ref : string)
    (labels : list string) :
  stable I (create_observable w self k v d t ref labels).
Proof.
  unfold create_observable.
  apply stable_bind; [apply stable_get_id |]. intros org.
  apply stable_bind; [apply stable_create; reflexivity |]. intros observable.
  apply stable_bind; [| intros _; apply stable_ret].
  destruct observable as [oid |]; [| apply stable_ret].
  destruct labels; [apply stable_ret | apply stable_add_labels].
Qed.

Lemma stable_process_entry (self : Connector) (ext : option string) (e : Entry)
    (objects : list Obj) :
  stable I (process_entry w self ext e objects).
Proof.
  unfold process_entry. destruct (ip e) as [v |]; [| apply stable_ret].
  cbv zeta. apply stable_bind; [apply stable_get_id |]. intros ref.
  apply stable_bind; [apply stable_create_observable |].
  intros [oid |]; apply stable_ret.
Qed.

Lemma stable_process_entries (self : Connector) (ext : option string)
    (data : list Entry) (objects : list Obj) :
  stable I (process_entries w self ext data objects).
Proof.
  revert objects. induction data as [| e data IH]; intros objects; simpl.
  - apply stable_ret.
  - apply stable_bind; [apply stable_process_entry | intros objects'; apply IH].
Qed.

Lemma stable_create_opencti_objects (self : Connector) (data : list Entry)
    (test_mode : bool) :
  stable I (create_opencti_objects w self data test_mode).
Proof.
  unfold create_opencti_objects. cbv zeta.
  apply stable_bind; [apply stable_create; reflexivity |]. intros ext.
  apply stable_bind; [apply stable_process_entries | intros objs; apply stable_ret].
Qed.

Lemma stable_fetch_dshield_data : stable I (fetch_dshield_data w).
Proof.
  intros s H. rewrite fetch_dshield_data_run.
  destruct (raises w (calls s) (HttpGet feed_url)); simpl;
    repeat (apply I_record; [reflexivity |]); exact H.
Qed.

Lemma stable_save_to_json (out : Output) (f : string) :
  stable I (save_to_json w out f).
Proof.
  intros s H. rewrite save_to_json_run. simpl.
  destruct (raises w (calls s) (FileWrite f out));
    repeat (apply I_record; [reflexivity |]); exact H.
Qed.

Lemma stable_run (self : Connector) (test_mode : bool) :
  stable I (run w self test_mode).
Proof.
  unfold run. apply stable_try.
  - apply stable_bind; [apply stable_fetch_dshield_data |].
    intros [| e d]; [apply stable_emit; reflexivity |].
    apply stable_bind; [apply stable_create_opencti_objects |].
    intros out. apply stable_save_to_json.
  - intros e. apply stable_emit. reflexivity.
Qed.

Lemma stable_init : stable I (init w).
Proof.
  unfold init.
  apply stable_bind; [apply stable_create; reflexivity |]. intros r.
  apply stable_bind; [apply stable_get_id |]. intros i.
  apply stable_bind; [apply stable_create; reflexivity |]. intros org.
  apply stable_ret.
Qed.

Lemma stable_main (args : Args) : stable I (main w args).
Proof.
  unfold main.
  apply stable_bind.
  - destruct (debug args); [apply stable_emit; reflexivity | apply stable_ret].
  - intros _. apply stable_bind; [apply stable_init |].
    intros connector. apply stable_run.
Qed.
End Stability.

(** ** Creating a tag at most once *)

Lemma creations_of_cons (t : string) (c : Call) (cs : list Call) :
  creations_of t (c :: cs)
  = match c with
    | LabelCreate v _ =>
        if decide (lower v = lower t) then S (creations_of t cs) else creations_of t cs
    | _ => creations_of t cs
    end.
Proof.
  unfold creations_of, created. destruct c; try reflexivity.
  simpl. rewrite filter_cons. destruct (decide (lower value = lower t)); reflexivity.
Qed.

Lemma once_created_record (t : string) (c : Call) (s : Store) :
  created [c] = [] -> once_created t s -> once_created t (record c s).
Proof.
  intros Hc [Hle Hex]. unfold once_created, has_label in *. simpl.
  rewrite creations_of_cons. destruct c; try discriminate; auto.
Qed.

Lemma get_label_once_created (w : World) (t : string) :
  honest_search w -> reliable_label_create w ->
  forall l color, stable (once_created t) (get_label w l color).
Proof.
  intros Hs Hc l color s [Hle Hex]. rewrite get_label_run.
  destruct (raises w (calls s) (LabelList l)) as [x |];
    [apply once_created_record; [reflexivity | split; assumption] |].
  destruct (find_label _ l) as [i |] eqn:F;
    [apply once_created_record; [reflexivity | split; assumption] |].
  unfold label_create. simpl calls.
  destruct (Hc (LabelList l :: calls s) l color) as [Hr Ha]. rewrite Hr.
  destruct (answer w (LabelList l :: calls s) (LabelCreate l color)) as [i |];
    [| congruence].
  simpl. unfold once_created, has_label. simpl.
  rewrite !creations_of_cons.
  destruct (decide (lower l = lower t)) as [E | N].
  - assert (Z : creations_of t (calls s) = 0).
    { destruct (creations_of t (calls s)) as [| [| n]] eqn:C; [reflexivity | | lia].
      exfalso. destruct (Hex eq_refl) as (lab & Hlab & Hm).
      rewrite find_label_none in F. apply (F lab); [| congruence].
      apply list_elem_of_filter. split; [| exact Hlab]. apply Hs. congruence. }
    rewrite Z. split; [lia |]. intros _.
    exists (mkLabel l i). split; [| exact E].
    apply elem_of_app. right. left.
  - split; [exact Hle |]. intros H. destruct (Hex H) as (lab & Hlab & Hm).
    exists lab. split; [| exact Hm]. apply elem_of_app. left. exact Hlab.
Qed.

Lemma labels_for_none (w : World) (t l : string) (s : Store) :
  honest_search w -> lower l = lower t ->
  find_label (filter (fun x => search_match w l (lbl_value x) = true) (store_labels s)) l
  = None ->
  labels_for t s = 0.
Proof.
  intros Hs E F. rewrite find_label_none in F. unfold labels_for.
  destruct (filter (fun x => lower (lbl_value x) = lower t) (store_labels s))
    as [| x rest] eqn:Q; [reflexivity |].
  exfalso. assert (Hx : x ∈ x :: rest) by left.
  rewrite <- Q in Hx. apply list_elem_of_filter in Hx. destruct Hx as [Hm Hx].
  apply (F x); [| congruence].
  apply list_elem_of_filter. split; [| exact Hx]. apply Hs. congruence.
Qed.

Lemma get_label_labels_for (w : World) (t : string) (n : nat) :
  honest_search w ->
  forall l color,
    stable (fun s => labels_for t s <= Nat.max 1 n) (get_label w l color).
Proof.
  intros Hs l color s H. rewrite get_label_run.
  destruct (raises w (calls s) (LabelList l)) as [x |]; [exact H |].
  destruct (find_label _ l) as [i |] eqn:F; [exact H |].
  unfold label_create. simpl calls.
  destruct (raises w (LabelList l :: calls s) (LabelCreate l color)); [exact H |].
  destruct (answer w (LabelList l :: calls s) (LabelCreate l color)) as [i |];
    [| exact H].
  simpl. unfold labels_for in *. simpl. rewrite filter_app, length_app.
  rewrite filter_cons, filter_nil.
  destruct (decide (lower (lbl_value (mkLabel l i)) = lower t)) as [E | N].
  - pose proof (labels_for_none w t l s Hs E F) as Z. unfold labels_for in Z.
    rewrite Z. simpl. lia.
  - simpl. lia.
Qed.

(** ** Further properties of label resolution *)

(** When several listed labels equal the tag up to case, the loop of
    [get_label] returns the handle of the first one. *)
Lemma find_label_first (l1 l2 : list Label) (l : Label) (t : string) :
  (forall x, x ∈ l1 -> lower (lbl_value x) <> lower t) ->
  lower (lbl_value l) = lower t ->
  find_label (l1 ++ l :: l2) t = Some (lbl_id l).
Proof.
  intros Hno Hm. induction l1 as [| x l1 IH]; simpl.
  - rewrite Hm, String.eqb_refl. reflexivity.
  - destruct (String.eqb_spec (lower (lbl_value x)) (lower t)) as [E | N].
    + exfalso. apply (Hno x); [left | exact E].
    + apply IH. intros y Hy. apply Hno. right. exact Hy.
Qed.

(** X2: A resolution that finds several store labels equal to the tag up
    to case returns the handle of the first of them in store order,
    and creates nothing. *)
Theorem get_label_first_match (w : World) (t color : string) (s : Store)
    (l1 l2 : list Label) (l : Label) :
  store_labels s = (l1 ++ l :: l2)%list ->
  (forall x, x ∈ l1 -> lower (lbl_value x) <> lower t) ->
  lower (lbl_value l) = lower t ->
  search_match w t (lbl_value l) = true ->
  raises w (calls s) (LabelList t) = None ->
  get_label w t color s = (Ok (lbl_id l), record (LabelList t) s).
Proof.
  intros Hst Hno Hm Hs Hr. rewrite get_label_run, Hr, Hst.
  rewrite filter_app, filter_cons.
  destruct (decide (search_match w t (lbl_value l) = true)) as [_ | N];
    [| contradiction].
  rewrite find_label_first; [reflexivity | | exact Hm].
  intros x Hx. apply list_elem_of_filter in Hx. apply Hno. apply Hx.
Qed.

Lemma get_label_first_match_witness :
  get_label (reliable_world []) "botnet" default_color
    (mkStore [mkLabel "scanner" "id-1"; mkLabel "BotNet" "id-2";
              mkLabel "botnet" "id-3"] [])
  = (Ok "id-2",
     record (LabelList "botnet")
       (mkStore [mkLabel "scanner" "id-1"; mkLabel "BotNet" "id-2";
                 mkLabel "botnet" "id-3"] [])).
Proof.
  apply (get_label_first_match (reliable_world []) "botnet" default_color
           (mkStore [mkLabel "scanner" "id-1"; mkLabel "BotNet" "id-2";
                     mkLabel "botnet" "id-3"] [])
           [mkLabel "scanner" "id-1"] [mkLabel "botnet" "id-3"]
           (mkLabel "BotNet" "id-2")).
  - reflexivity.
  - intros x Hx. apply list_elem_of_singleton in Hx. subst x. discriminate.
  - reflexivity.
  - reflexivity.
  - reflexivity.
Defined.

(** X3: Whenever a resolution returns a handle, the store then holds a
    label with that handle whose value equals the tag up to case:
    either one it already held or the one just created. *)
Theorem get_label_returns_store_handle (w : World) (t color i : string) (s : Store) :
  (get_label w t color s).1 = Ok i ->
  exists l,
    l ∈ store_labels (get_label w t color s).2 /\
    lower (lbl_value l) = lower t /\ lbl_id l = i.
Proof.
  rewrite get_label_run.
  destruct (raises w (calls s) (LabelList t)) as [x |]; [discriminate |].
  destruct (find_label _ t) as [j |] eqn:F.
  - intros [= <-]. destruct (find_label_some _ _ _ F) as (l & Hl & Hm & Hi).
    exists l. apply list_elem_of_filter in Hl. destruct Hl as [_ Hl]. auto.
  - unfold label_create. simpl calls.
    destruct (raises w (LabelList t :: calls s) (LabelCreate t color)); [discriminate |].
    destruct (answer w (LabelList t :: calls s) (LabelCreate t color)) as [j |];
      [| discriminate].
    simpl. intros [= <-]. exists (mkLabel t j).
    split; [apply elem_of_app; right; left | auto].
Qed.

Lemma get_label_returns_store_handle_witness :
  exists l,
    l ∈ store_labels (get_label (reliable_world []) "botnet" default_color empty_store).2 /\
    lower (lbl_value l) = lower "botnet" /\ lbl_id l = "label--botnet".
Proof.
  apply (get_label_returns_store_handle (reliable_world []) "botnet" default_color
           "label--botnet" empty_store).
  reflexivity.
Defined.

(** ** Further properties of the vocabulary *)

Lemma lower_ascii_idempotent (c : ascii) : lower_ascii (lower_ascii c) = lower_ascii c.
Proof. destruct c as [[] [] [] [] [] [] [] []]; reflexivity. Qed.

Lemma lower_idempotent (s : string) : lower (lower s) = lower s.
Proof.
  induction s as [| c s IH]; simpl; [reflexivity |].
  rewrite lower_ascii_idempotent, IH. reflexivity.
Qed.

Lemma described_length (data : list Entry) : length (described data) <= length data.
Proof.
  induction data as [| e data IH]; [reflexivity |].
  change (described (e :: data))
    with (match lower <$> description e with
          | Some x => x :: described data
          | None => described data
          end).
  destruct (description e); simpl; lia.
Qed.

Lemma described_app (d1 d2 : list Entry) :
  described (d1 ++ d2) = (described d1 ++ described d2)%list.
Proof. unfold described. apply omap_app. Qed.

(** X4: Every label of the vocabulary is already in lower case; the
    vocabulary is no longer than the feed; and the vocabulary of two
    feeds put together is the union of their vocabularies. *)
Theorem extract_labels_lower_case (data : list Entry) :
  (forall x, x ∈ extract_labels data -> lower x = x) /\
  length (extract_labels data) <= length data /\
  (forall data' : list Entry,
     (list_to_set (extract_labels (data ++ data')) : gset string)
     = list_to_set (extract_labels data) ∪ list_to_set (extract_labels data')).
Proof.
  unfold extract_labels. split; [| split].
  - intros x Hx. rewrite elem_of_elements, label_set_described,
      elem_of_list_to_set, elem_of_described in Hx.
    destruct Hx as (e & d & _ & _ & ->). apply lower_idempotent.
  - rewrite label_set_described.
    etrans; [| apply described_length].
    apply submseteq_length, NoDup_submseteq; [apply NoDup_elements |].
    intros x Hx. rewrite elem_of_elements, elem_of_list_to_set in Hx. exact Hx.
  - intros data'. rewrite !label_set_described, described_app.
    apply set_eq. intros x.
    rewrite elem_of_union, !elem_of_list_to_set, !elem_of_elements,
      !elem_of_list_to_set, elem_of_app. reflexivity.
Qed.

(** ** Construction and the entry point *)

Lemma init_run (w : World) (s : Store) :
  init w s =
  let c1 := ExternalReferenceCreate "dshield.org" "https://dshield.org/" in
  match raises w (calls s) c1 with
  | Some x => (Raise x, record c1 s)
  | None =>
      match answer w (calls s) c1 with
      | None => (Raise TypeError_None, record c1 s)
      | Some r =>
          let c2 := IdentityCreate "DShield" "DShield Intel Feed importer" [r] in
          match raises w (c1 :: calls s) c2 with
          | Some x => (Raise x, record c2 (record c1 s))
          | None =>
              (Ok (mkConnector (answer w (c1 :: calls s) c2)),
               record c2 (record c1 s))
          end
      end
  end.
Proof.
  unfold init. rewrite bind_run. unfold create. cbv zeta.
  destruct (raises w (calls s) _) as [x |]; [reflexivity |].
  destruct (answer w (calls s) _) as [r |]; [| reflexivity].
  rewrite bind_run. cbv [get_id mret M_ret]. rewrite bind_run. simpl calls.
  destruct (raises w _ (IdentityCreate _ _ _)); reflexivity.
Qed.

Lemma main_run (w : World) (args : Args) (s : Store) :
  main w args s =
  match init w (after_flags args s) with
  | (Ok connector, s1) => run w connector (test args) s1
  | (Raise x, s1) => (Raise x, s1)
  end.
Proof.
  unfold main, after_flags. rewrite bind_run.
  destruct (debug args); simpl; rewrite bind_run; reflexivity.
Qed.

Lemma init_calls (w : World) (s : Store) :
  exists new,
    calls (init w s).2 = (new ++ calls s)%list /\
    Forall (fun c => startup_call c = true) new.
Proof.
  rewrite init_run. cbv zeta.
  destruct (raises w (calls s) _) as [x |];
    [eexists [_]; split; [reflexivity | repeat constructor] |].
  destruct (answer w (calls s) _) as [r |];
    [| eexists [_]; split; [reflexivity | repeat constructor]].
  destruct (raises w _ (IdentityCreate _ _ _));
    (eexists [_; _]; split; [reflexivity | repeat constructor]).
Qed.

(** X1: [main] lets an exception escape exactly when the constructor
    raises.  In that case the feed is never requested and no file is
    written: the trace holds start-up calls only.  Once the connector
    is built, [main] returns normally whatever the run meets. *)
Theorem main_raises_only_from_init (w : World) (args : Args) (s : Store) :
  match (init w (after_flags args s)).1 with
  | Ok connector =>
      (main w args s).1 = Ok tt /\
      main w args s = run w connector (test args) (init w (after_flags args s)).2
  | Raise x =>
      (main w args s).1 = Raise x /\
      exists new,
        calls (main w args s).2 = (new ++ calls s)%list /\
        Forall (fun c => startup_call c = true) new
  end.
Proof.
  rewrite main_run.
  destruct (init_calls w (after_flags args s)) as (n1 & E1 & F1).
  destruct (init w (after_flags args s)) as [[connector | x] s1]; simpl in *.
  - split; [apply run_never_raises | reflexivity].
  - split; [reflexivity |]. rewrite E1. unfold after_flags.
    destruct (debug args).
    + exists (n1 ++ [SetLevelDebug])%list. split.
      * rewrite <- app_assoc. reflexivity.
      * apply Forall_app. split; [exact F1 | repeat constructor].
    + exists n1. split; [reflexivity | exact F1].
Qed.

(** ** The protocol of the label loop *)

Lemma add_one_label_protocol (w : World) (oid v label : string) (s : Store) :
  exists chunk,
    calls (add_one_label w oid v label s).2 = (rev chunk ++ calls s)%list /\
    label_protocol oid v label chunk.
Proof.
  assert (G : exists pre,
             calls (get_label w label default_color s).2 = (rev pre ++ calls s)%list /\
             (pre = [LabelList label] \/
              pre = [LabelList label; LabelCreate label default_color])).
  { destruct (get_label_calls w label default_color s) as [E | E].
    - exists [LabelList label]. split; [exact E | left; reflexivity].
    - exists [LabelList label; LabelCreate label default_color].
      split; [exact E | right; reflexivity]. }
  destruct G as (pre & E0 & Hpre).
  unfold add_one_label, attach_label. rewrite try_run, bind_run.
  destruct (get_label w label default_color s) as [[i | e] s1]; simpl in E0.
  - destruct (truthy i).
    + rewrite bind_run. simpl. unfold call. simpl.
      destruct (raises w (Sleep :: calls s1) (AddLabel oid i)) as [e |]; simpl.
      * exists (pre ++ [Sleep; AddLabel oid i;
                        HelperLogError (label_failure label v e); Sleep])%list.
        split; [rewrite rev_app_distr, E0; reflexivity |].
        exists pre, [Sleep; AddLabel oid i;
                     HelperLogError (label_failure label v e); Sleep].
        split; [reflexivity |]. split; [exact Hpre |].
        right. right. left. exists i, e. reflexivity.
      * exists (pre ++ [Sleep; AddLabel oid i])%list.
        split; [rewrite rev_app_distr, E0; reflexivity |].
        exists pre, [Sleep; AddLabel oid i].
        split; [reflexivity |]. split; [exact Hpre |].
        right. left. exists i. reflexivity.
    + simpl. exists (pre ++ [])%list.
      split; [rewrite app_nil_r; exact E0 |].
      exists pre, []. split; [reflexivity |]. split; [exact Hpre | left; reflexivity].
  - simpl. exists (pre ++ [HelperLogError (label_failure label v e); Sleep])%list.
    split; [rewrite rev_app_distr, E0; reflexivity |].
    exists pre, [HelperLogError (label_failure label v e); Sleep].
    split; [reflexivity |]. split; [exact Hpre |].
    right. right. right. exists e. reflexivity.
Qed.

(** X5: For each label, in order, the label loop issues the search for it,
    the creation only right after the search, and then ends the label
    in one of four ways: nothing (the handle is empty), pause and
    attachment, pause and attachment followed by the failure line and
    a pause, or the failure line and a pause. *)
Theorem add_labels_protocol (w : World) (oid v : string) (labels : list string)
    (s : Store) :
  exists chunks,
    calls (add_labels w oid v labels s).2 = (rev (concat chunks) ++ calls s)%list /\
    Forall2 (label_protocol oid v) labels chunks.
Proof.
  revert s. induction labels as [| label rest IH]; intros s.
  - exists []. split; [reflexivity | constructor].
  - simpl. rewrite bind_run.
    destruct (add_one_label_protocol w oid v label s) as (chunk & E1 & P1).
    destruct (add_one_label w oid v label s) as [[[] | x] s1] eqn:R; simpl in E1.
    + destruct (IH s1) as (chunks & E2 & P2).
      exists (chunk :: chunks). split; [| constructor; assumption].
      simpl. rewrite rev_app_distr, E2, E1, <- app_assoc. reflexivity.
    + exfalso. pose proof (add_one_label_spec w oid v label s) as [H _].
      rewrite R in H. discriminate.
Qed.

(** ** Traces closed under concatenation *)

Section Traces.
Variable w : World.
Variable T : list Call -> Prop.

Hypothesis T_nil : T [].
Hypothesis T_app : forall a b, T a -> T b -> T (a ++ b)%list.
Hypothesis T_other : forall c, label_loop_call c = false -> T [c].
Hypothesis T_label : forall oid v label, adds T (add_one_label w oid v label).

Lemma adds_ret {A} (a : A) : adds T (mret a).
Proof. intros s. exists []. split; [reflexivity | exact T_nil]. Qed.

Lemma adds_raise {A} (e : Exn) : adds T (@raise A e).
Proof. intros s. exists []. split; [reflexivity | exact T_nil]. Qed.

Lemma adds_bind {A B} (m : M A) (k : A -> M B) :
  adds T m -> (forall a, adds T (k a)) -> adds T (m ≫= k).
Proof.
  intros Hm Hk s. rewrite bind_run.
  destruct (Hm s) as (n1 & E1 & T1).
  destruct (m s) as [[a | e] s1]; simpl in E1.
  - destruct (Hk a s1) as (n2 & E2 & T2).
    exists (n1 ++ n2)%list. split; [| apply T_app; assumption].
    rewrite rev_app_distr, E2, E1, <- app_assoc. reflexivity.
  - exists n1. auto.
Qed.

Lemma adds_try {A} (m : M A) (h : Exn -> M A) :
  adds T m -> (forall e, adds T (h e)) -> adds T (try_except m h).
Proof.
  intros Hm Hh s. rewrite try_run.
  destruct (Hm s) as (n1 & E1 & T1).
  destruct (m s) as [[a | e] s1]; simpl in E1.
  - exists n1. auto.
  - destruct (Hh e s1) as (n2 & E2 & T2).
    exists (n1 ++ n2)%list. split; [| apply T_app; assumption].
    rewrite rev_app_distr, E2, E1, <- app_assoc. reflexivity.
Qed.

Lemma adds_get_id (x : option string) : adds T (get_id x).
Proof. destruct x; [apply adds_ret | apply adds_raise]. Qed.

Lemma adds_emit (c : Call) : label_loop_call c = false -> adds T (emit c).
Proof. intros Hc s. exists [c]. split; [reflexivity | apply T_other, Hc]. Qed.

Lemma adds_call (c : Call) : label_loop_call c = false -> adds T (call w c).
Proof.
  intros Hc s. exists [c]. unfold call.
  destruct (raises w (calls s) c); (split; [reflexivity | apply T_other, Hc]).
Qed.

Lemma adds_create (c : Call) : label_loop_call c = false -> adds T (create w c).
Proof.
  intros Hc s. exists [c]. unfold create.
  destruct (raises w (calls s) c); (split; [reflexivity | apply T_other, Hc]).
Qed.

Lemma adds_add_labels (oid v : string) (labels : list string) :
  adds T (add_labels w oid v labels).
Proof.
  induction labels as [| label rest IH]; simpl; [apply adds_ret |].
  apply adds_bind; [apply T_label | intros _; exact IH].
Qed.

Lemma adds_create_observable (self : Connector) (k v d t ref : string)
    (labels : list string) :
  adds T (create_observable w self k v d t ref labels).
Proof.
  unfold create_observable.
  apply adds_bind; [apply adds_get_id |]. intros org.
  apply adds_bind; [apply adds_create; reflexivity |]. intros observable.
  apply adds_bind; [| intros _; apply adds_ret].
  destruct observable as [oid |]; [| apply adds_ret].
  destruct labels; [apply adds_ret | apply adds_add_labels].
Qed.

Lemma adds_process_entries (self : Connector) (ext : option string)
    (data : list Entry) (objects : list Obj) :
  adds T (process_entries w self ext data objects).
Proof.
  revert objects. induction data as [| e data IH]; intros objects; simpl.
  - apply adds_ret.
  - apply adds_bind; [| intros objects'; apply IH].
    unfold process_entry. destruct (ip e) as [v |]; [| apply adds_ret].
    cbv zeta. apply adds_bind; [apply adds_get_id |]. intros ref.
    apply adds_bind; [apply adds_create_observable |].
    intros [oid |]; apply adds_ret.
Qed.

Lemma adds_create_opencti_objects (self : Connector) (data : list Entry)
    (test_mode : bool) :
  adds T (create_opencti_objects w self data test_mode).
Proof.
  unfold create_opencti_objects. cbv zeta.
  apply adds_bind; [apply adds_create; reflexivity |]. intros ext.
  apply adds_bind; [apply adds_process_entries | intros objs; apply adds_ret].
Qed.

Lemma adds_run (self : Connector) (test_mode : bool) :
  adds T (run w self test_mode).
Proof.
  unfold run. apply adds_try.
  - apply adds_bind.
    + unfold fetch_dshield_data. apply adds_try.
      * intros s. exists [HttpGet feed_url]. unfold http_get_json.
        destruct (raises w (calls s) (HttpGet feed_url));
          (split; [reflexivity | apply T_other; reflexivity]).
      * intros e. destruct (exn_class e);
          (apply adds_bind; [apply adds_emit; reflexivity | intros _; apply adds_ret]).
    + intros [| e d]; [apply adds_emit; reflexivity |].
      apply adds_bind; [apply adds_create_opencti_objects |].
      intros out. unfold save_to_json. apply adds_try.
      * apply adds_call. reflexivity.
      * intros e0. apply adds_emit. reflexivity.
  - intros e. apply adds_emit. reflexivity.
Qed.

Lemma adds_main (args : Args) : adds T (main w args).
Proof.
  unfold main. apply adds_bind.
  - destruct (debug args); [apply adds_emit; reflexivity | apply adds_ret].
  - intros _. apply adds_bind; [| intros connector; apply adds_run].
    unfold init.
    apply adds_bind; [apply adds_create; reflexivity |]. intros r.
    apply adds_bind; [apply adds_get_id |]. intros i.
    apply adds_bind; [apply adds_create; reflexivity |]. intros org.
    apply adds_ret.
Qed.
End Traces.

(** ** Pacing *)

Lemma paced_app (q : option Call) (a b : list Call) :
  paced q a = true -> (forall q', paced q' b = true) -> paced q (a ++ b) = true.
Proof.
  revert q. induction a as [| c a IH]; intros q Ha Hb; [apply Hb |].
  simpl in *. apply andb_true_iff in Ha. destruct Ha as [Hc Ha].
  apply andb_true_iff. split; [| apply IH; assumption].
  destruct c; auto. destruct a; [discriminate | exact Hc].
Qed.

Lemma paced_attach (q : option Call) (pre post : list Call) (i l : string) :
  paced q (pre ++ AddLabel i l :: post) = true ->
  (pre = [] /\ is_sleep q = true) \/ exists pre', pre = (pre' ++ [Sleep])%list.
Proof.
  revert q. induction pre as [| c pre IH]; intros q H.
  - left. simpl in H. apply andb_true_iff in H. split; [reflexivity | apply H].
  - right. simpl in H. apply andb_true_iff in H. destruct H as [_ H].
    destruct (IH _ H) as [[-> Hs] | [pre' ->]].
    + exists []. destruct c; try discriminate. reflexivity.
    + exists (c :: pre'). reflexivity.
Qed.

Lemma paced_failure (q : option Call) (pre post : list Call) (m : string) :
  paced q (pre ++ HelperLogError m :: post) = true ->
  exists post', post = Sleep :: post'.
Proof.
  revert q. induction pre as [| c pre IH]; intros q H.
  - simpl in H. apply andb_true_iff in H. destruct H as [H _].
    destruct post as [| [] post']; try discriminate. exists post'. reflexivity.
  - simpl in H. apply andb_true_iff in H. destruct H as [_ H]. exact (IH _ H).
Qed.

Lemma add_one_label_paced (w : World) (oid v label : string) :
  adds (fun new => forall q, paced q new = true) (add_one_label w oid v label).
Proof.
  intros s. destruct (add_one_label_protocol w oid v label s) as (chunk & E & P).
  exists chunk. split; [exact E |]. intros q.
  destruct P as (pre & post & -> & Hpre & Hpost).
  destruct Hpre as [-> | ->];
    destruct Hpost as [-> | [[i ->] | [(i & e & ->) | [e ->]]]]; reflexivity.
Qed.

(** X6: Throughout a whole [main] run, in any world, every label attachment
    directly follows a pause and every label-failure line is directly
    followed by one. *)
Theorem main_is_paced (w : World) (args : Args) (s : Store) :
  exists new,
    calls (main w args s).2 = (rev new ++ calls s)%list /\
    paced None new = true /\
    (forall pre i l post,
       new = (pre ++ AddLabel i l :: post)%list ->
       exists pre', pre = (pre' ++ [Sleep])%list) /\
    (forall pre m post,
       new = (pre ++ HelperLogError m :: post)%list ->
       exists post', post = Sleep :: post').
Proof.
  destruct (adds_main w (fun new => forall q, paced q new = true)) with (args := args) (s := s)
    as (new & E & P).
  - intros q. reflexivity.
  - intros a b Ha Hb q. apply paced_app; [apply Ha | exact Hb].
  - intros c Hc q. destruct c; try discriminate; reflexivity.
  - apply add_one_label_paced.
  - exists new. split; [exact E |]. split; [apply P |]. split.
    + intros pre i l post ->. destruct (paced_attach _ _ _ _ _ (P None)) as [[_ H] | H];
        [discriminate | exact H].
    + intros pre m post ->. exact (paced_failure _ _ _ _ (P None)).
Qed.

(** ** What the publishing loop issues *)

Lemma entry_labels_feed_tag (data : list Entry) (e : Entry) (l : string) :
  e ∈ data -> l ∈ entry_labels e -> feed_tag data l.
Proof.
  intros He Hl. unfold entry_labels in Hl. apply elem_of_cons in Hl.
  destruct Hl as [-> | Hl]; [left; reflexivity |].
  right. destruct (description e) as [d |] eqn:Hd; [| inversion Hl].
  apply list_elem_of_singleton in Hl. subst l.
  apply elem_of_described. exists e, d. auto.
Qed.

Lemma process_entry_calls (w : World) (self : Connector) (ext : option string)
    (data : list Entry) (e : Entry) (objects : list Obj) (s : Store) :
  e ∈ data ->
  exists new,
    calls (process_entry w self ext e objects s).2 = (rev new ++ calls s)%list /\
    Forall (publishing_call data) new.
Proof.
  intros He. rewrite process_entry_run.
  destruct (ip e) as [v |] eqn:Hip; [| exists []; split; [reflexivity | constructor]].
  destruct ext as [ref |]; [| exists []; split; [reflexivity | constructor]].
  rewrite create_observable_run.
  destruct (organization self) as [org |];
    [| exists []; split; [reflexivity | constructor]].
  cbv zeta.
  assert (P : publishing_call data
                (ObservableCreate "IPv4-Addr.value" v [ref] org "IPv4-Addr")).
  { simpl. split; [reflexivity |]. split; [reflexivity |]. exists e. auto. }
  destruct (raises w (calls s) _) as [x |];
    [eexists [_]; split; [reflexivity | constructor; [exact P | constructor]] |].
  destruct (answer w (calls s) _) as [oid |];
    [| eexists [_]; split; [reflexivity | constructor; [exact P | constructor]]].
  destruct (add_labels_spec w oid v (entry_labels e)
              (record (ObservableCreate "IPv4-Addr.value" v [ref] org "IPv4-Addr") s))
    as (_ & new & E & _ & T).
  exists (ObservableCreate "IPv4-Addr.value" v [ref] org "IPv4-Addr" :: new).
  split; [etrans; [exact E |]; simpl; rewrite <- app_assoc; reflexivity |].
  constructor; [exact P |].
  eapply Forall_impl; [exact T |].
  intros c Hc. destruct c; simpl in *; try contradiction; auto.
  - eapply entry_labels_feed_tag; eauto.
  - destruct Hc as [Hc ->]. split; [| reflexivity].
    eapply entry_labels_feed_tag; eauto.
Qed.

Lemma process_entries_calls (w : World) (self : Connector) (ext : option string)
    (data data0 : list Entry) (objects : list Obj) (s : Store) :
  (forall e, e ∈ data0 -> e ∈ data) ->
  exists new,
    calls (process_entries w self ext data0 objects s).2 = (rev new ++ calls s)%list /\
    Forall (publishing_call data) new.
Proof.
  revert objects s. induction data0 as [| e data0 IH]; intros objects s Hsub.
  - exists []. split; [reflexivity | constructor].
  - simpl. rewrite bind_run.
    destruct (process_entry_calls w self ext data e objects s) as (n1 & E1 & F1);
      [apply Hsub; left |].
    destruct (process_entry w self ext e objects s) as [[objects1 | x] s1];
      simpl in E1.
    + destruct (IH objects1 s1) as (n2 & E2 & F2);
        [intros e' He'; apply Hsub; right; exact He' |].
      exists (n1 ++ n2)%list.
      split; [rewrite rev_app_distr, E2, E1, <- app_assoc; reflexivity |].
      apply Forall_app; auto.
    + exists n1. auto.
Qed.

Lemma create_opencti_objects_trace (w : World) (self : Connector)
    (data : list Entry) (test_mode : bool) (s : Store) :
  exists rest,
    calls (create_opencti_objects w self data test_mode s).2
    = (rev (ExternalReferenceCreate "dshield.org" feed_url :: rest) ++ calls s)%list /\
    Forall (publishing_call data) rest.
Proof.
  unfold create_opencti_objects. cbv zeta. rewrite bind_run. unfold create.
  destruct (raises w (calls s) _) as [x |];
    [exists []; split; [reflexivity | constructor] |].
  rewrite bind_run.
  destruct (process_entries_calls w self
              (answer w (calls s) (ExternalReferenceCreate "dshield.org" feed_url))
              data data []
              (record (ExternalReferenceCreate "dshield.org" feed_url) s))
    as (new & E & F); [auto |].
  exists new. split; [| exact F].
  destruct (process_entries _ _ _ _ _ _) as [[objs | x] s1];
    simpl in *; rewrite E, <- app_assoc; reflexivity.
Qed.

(** X7: [create_opencti_objects] first creates the external reference of
    the feed; after that it only creates observables of type IPv4-Addr
    whose value is the [ip] of a feed record, searches and creates
    labels that are tags of the feed (creating them with the default
    colour), pauses, attaches labels and logs label failures.  It never
    requests the feed, writes a file or creates an organization. *)
Theorem create_opencti_objects_calls (w : World) (self : Connector)
    (data : list Entry) (test_mode : bool) (s : Store) :
  exists rest,
    calls (create_opencti_objects w self data test_mode s).2
    = (rev (ExternalReferenceCreate "dshield.org" feed_url :: rest) ++ calls s)%list /\
    Forall (publishing_call data) rest.
Proof. apply create_opencti_objects_trace. Qed.

(** ** The summary *)

Lemma candidates_cons (e : Entry) (data : list Entry) :
  candidates (e :: data)
  = match candidate e with
    | Some o => o :: candidates data
    | None => candidates data
    end.
Proof. reflexivity. Qed.

Lemma process_entries_published (w : World) (self : Connector)
    (ext : option string) (data : list Entry) (objects objects' : list Obj)
    (s : Store) :
  (process_entries w self ext data objects s).1 = Ok objects' ->
  exists added,
    objects' = (objects ++ added)%list /\ sublist added (candidates data).
Proof.
  revert objects s. induction data as [| e data IH]; intros objects s.
  - simpl. intros [= <-]. exists []. split; [rewrite app_nil_r; reflexivity | constructor].
  - rewrite candidates_cons. cbn [process_entries]. rewrite bind_run. unfold candidate.
    destruct (ip e) as [v |] eqn:Hip.
    + destruct (process_entry_some w self ext e objects s v Hip) as [_ Hres].
      destruct (process_entry w self ext e objects s) as [[objects1 | x] s1];
        [| discriminate].
      intros H. destruct (IH _ _ H) as (added & -> & Hsub).
      destruct (Hres objects1 eq_refl) as [-> | ->].
      * exists added. split; [reflexivity | apply sublist_cons; exact Hsub].
      * exists (mkObj "ipv4-addr" v (entry_labels e) :: added).
        split; [rewrite <- app_assoc; reflexivity | apply sublist_skip; exact Hsub].
    + rewrite process_entry_run, Hip. apply IH.
Qed.

Lemma create_opencti_objects_ok (w : World) (self : Connector)
    (data : list Entry) (test_mode : bool) (s : Store) (out : Output) :
  (create_opencti_objects w self data test_mode s).1 = Ok out ->
  out_labels out = extract_labels data /\
  sublist (out_objects out) (candidates data).
Proof.
  unfold create_opencti_objects. cbv zeta. rewrite bind_run. unfold create.
  destruct (raises w (calls s) _) as [x |]; [discriminate |].
  rewrite bind_run.
  destruct (process_entries _ _ _ _ _ _) as [[objs | x] s1] eqn:E; [| discriminate].
  intros [= <-]. split; [reflexivity |]. simpl.
  destruct (process_entries_published w self _ data [] objs _
              (f_equal fst E)) as (added & -> & Hsub).
  exact Hsub.
Qed.

(** X8: Whenever [create_opencti_objects] returns, the summary holds the
    whole vocabulary of the feed, whatever was published, and its
    objects are those of records with an [ip] key, each at most once
    and in feed order; so there are no more objects than records. *)
Theorem summary_follows_feed_order (w : World) (self : Connector)
    (data : list Entry) (test_mode : bool) (s : Store) (out : Output) :
  (create_opencti_objects w self data test_mode s).1 = Ok out ->
  out_labels out = extract_labels data /\
  sublist (out_objects out) (candidates data) /\
  length (out_objects out) <= length data.
Proof.
  intros H. destruct (create_opencti_objects_ok _ _ _ _ _ _ H) as [HL HS].
  split; [exact HL |]. split; [exact HS |].
  etrans; [apply sublist_length; exact HS |].
  clear. induction data as [| e data IH]; [reflexivity |].
  rewrite candidates_cons. destruct (candidate e); simpl; lia.
Qed.

Lemma summary_follows_feed_order_witness :
  sublist
    [mkObj "ipv4-addr" "2.2.2.2" ["dshield"; "scanner"]]
    (candidates [mkEntry (Some "1.1.1.1") None; mkEntry None (Some "x");
                 mkEntry (Some "2.2.2.2") (Some "Scanner")]).
Proof.
  apply (summary_follows_feed_order
           (silent_world []) (mkConnector (Some "org"))
           [mkEntry (Some "1.1.1.1") None; mkEntry None (Some "x");
            mkEntry (Some "2.2.2.2") (Some "Scanner")]
           false empty_store
           (mkOutput ["scanner"; "x"]
              [mkObj "ipv4-addr" "2.2.2.2" ["dshield"; "scanner"]])).
  vm_compute. reflexivity.
Defined.

(** X9: Every published object has type ipv4-addr and carries the base
    label first; each of its labels is the base label or belongs to the
    vocabulary stored in the same summary. *)
Theorem published_labels_in_vocabulary (w : World) (self : Connector)
    (data : list Entry) (test_mode : bool) (s : Store) (out : Output) (o : Obj) :
  (create_opencti_objects w self data test_mode s).1 = Ok out ->
  o ∈ out_objects out ->
  obj_type o = "ipv4-addr" /\
  head (obj_labels o) = Some "dshield" /\
  (forall l, l ∈ obj_labels o -> l = "dshield" \/ l ∈ out_labels out).
Proof.
  intros H Ho. destruct (create_opencti_objects_ok _ _ _ _ _ _ H) as [HL HS].
  assert (Hc : o ∈ candidates data) by (apply (sublist_subseteq _ _ HS); exact Ho).
  unfold candidates in Hc. apply list_elem_of_omap in Hc.
  destruct Hc as (e & He & Hc). unfold candidate in Hc.
  destruct (ip e) as [v |]; [| discriminate]. injection Hc as <-. simpl.
  split; [reflexivity |]. split; [reflexivity |].
  intros l Hl. destruct (entry_labels_feed_tag data e l He Hl) as [-> | Hd];
    [left; reflexivity | right].
  rewrite HL. unfold extract_labels.
  rewrite elem_of_elements, label_set_described, elem_of_list_to_set. exact Hd.
Qed.

Lemma published_labels_in_vocabulary_witness :
  obj_type (mkObj "ipv4-addr" "2.2.2.2" ["dshield"; "scanner"]) = "ipv4-addr" /\
  head (obj_labels (mkObj "ipv4-addr" "2.2.2.2" ["dshield"; "scanner"]))
  = Some "dshield" /\
  (forall l, l ∈ obj_labels (mkObj "ipv4-addr" "2.2.2.2" ["dshield"; "scanner"]) ->
             l = "dshield" \/
             l ∈ out_labels (mkOutput ["scanner"; "x"]
                               [mkObj "ipv4-addr" "2.2.2.2" ["dshield"; "scanner"]])).
Proof.
  apply (published_labels_in_vocabulary
           (silent_world []) (mkConnector (Some "org"))
           [mkEntry (Some "1.1.1.1") None; mkEntry None (Some "x");
            mkEntry (Some "2.2.2.2") (Some "Scanner")]
           false empty_store).
  - vm_compute. reflexivity.
  - left.
Defined.

(** ** A store that accepts every observable *)

Lemma process_entries_accepted (w : World) (self : Connector) (org ref : string)
    (data : list Entry) (objects : list Obj) (s : Store) :
  accepts_observables w -> organization self = Some org ->
  (process_entries w self (Some ref) data objects s).1
  = Ok (objects ++ candidates data)%list.
Proof.
  intros Hw Horg. revert objects s.
  induction data as [| e data IH]; intros objects s.
  - simpl. rewrite app_nil_r. reflexivity.
  - rewrite candidates_cons. cbn [process_entries]. rewrite bind_run.
    rewrite process_entry_run. unfold candidate.
    destruct (ip e) as [v |]; [| apply IH].
    rewrite create_observable_run, Horg. cbv zeta.
    pose proof (Hw (calls s)
                  (ObservableCreate "IPv4-Addr.value" v [ref] org "IPv4-Addr"))
      as [Hr Ha].
    rewrite Hr.
    destruct (answer w (calls s) _) as [oid |]; [| congruence].
    rewrite IH, <- app_assoc. reflexivity.
Qed.

(** X10: When the store accepts the external reference and every observable
    and the connector has its organization, [create_opencti_objects]
    returns and publishes every record that has an [ip] key, in feed
    order, whatever happens to the labels. *)
Theorem accepted_feed_is_fully_published (w : World) (self : Connector)
    (org : string) (data : list Entry) (test_mode : bool) (s : Store) :
  accepts_observables w -> organization self = Some org ->
  (create_opencti_objects w self data test_mode s).1
  = Ok (mkOutput (extract_labels data) (candidates data)).
Proof.
  intros Hw Horg. unfold create_opencti_objects. cbv zeta.
  rewrite bind_run. unfold create.
  pose proof (Hw (calls s) (ExternalReferenceCreate "dshield.org" feed_url))
    as [Hr Ha].
  rewrite Hr. destruct (answer w (calls s) _) as [ref |]; [| congruence].
  rewrite bind_run.
  pose proof (process_entries_accepted w self org ref data []
                (record (ExternalReferenceCreate "dshield.org" feed_url) s) Hw Horg)
    as E.
  destruct (process_entries _ _ _ _ _ _) as [r s1]. simpl in E. subst r.
  reflexivity.
Qed.

Lemma accepted_feed_is_fully_published_witness :
  (create_opencti_objects (rate_limited_world []) (mkConnector (Some "org"))
     [mkEntry (Some "1.1.1.1") None; mkEntry None (Some "x");
      mkEntry (Some "2.2.2.2") (Some "Scanner")] false empty_store).1
  = Ok (mkOutput
          (extract_labels [mkEntry (Some "1.1.1.1") None; mkEntry None (Some "x");
                           mkEntry (Some "2.2.2.2") (Some "Scanner")])
          (candidates [mkEntry (Some "1.1.1.1") None; mkEntry None (Some "x");
                       mkEntry (Some "2.2.2.2") (Some "Scanner")])).
Proof.
  apply (accepted_feed_is_fully_published (rate_limited_world [])
           (mkConnector (Some "org")) "org").
  - intros h c. destruct c; try exact I; (split; [reflexivity | discriminate]).
  - reflexivity.
Defined.

(** ** Missing handles and feeds without IP records *)

Lemma process_entries_no_handle (w : World) (self : Connector)
    (ext : option string) (data : list Entry) (objects : list Obj) (s : Store) :
  organization self = None \/ ext = None ->
  process_entries w self ext data objects s
  = match candidates data with
    | [] => (Ok objects, s)
    | _ :: _ => (Raise TypeError_None, s)
    end.
Proof.
  intros H. induction data as [| e data IH]; [reflexivity |].
  rewrite candidates_cons. cbn [process_entries]. rewrite bind_run.
  rewrite process_entry_run. unfold candidate.
  destruct (ip e) as [v |]; [| exact IH].
  destruct ext as [ref |]; [| reflexivity].
  rewrite create_observable_run.
  destruct H as [-> | H]; [reflexivity | discriminate].
Qed.

(** X11: When the connector has no organization object, or the creation of
    the feed's external reference returns none, the first record with
    an [ip] key makes [create_opencti_objects] raise the error of
    subscripting [None], before any observable is submitted. *)
Theorem missing_handle_stops_publishing (w : World) (self : Connector)
    (data : list Entry) (test_mode : bool) (s : Store) :
  raises w (calls s) (ExternalReferenceCreate "dshield.org" feed_url) = None ->
  organization self = None \/
  answer w (calls s) (ExternalReferenceCreate "dshield.org" feed_url) = None ->
  candidates data <> [] ->
  create_opencti_objects w self data test_mode s
  = (Raise TypeError_None,
     record (ExternalReferenceCreate "dshield.org" feed_url) s).
Proof.
  intros Hr H Hc. unfold create_opencti_objects. cbv zeta.
  rewrite bind_run. unfold create. rewrite Hr, bind_run.
  rewrite process_entries_no_handle by exact H.
  destruct (candidates data); [contradiction | reflexivity].
Qed.

Lemma missing_handle_stops_publishing_witness :
  create_opencti_objects (reliable_world []) (mkConnector None)
    [mkEntry None (Some "x"); mkEntry (Some "1.1.1.1") None] false empty_store
  = (Raise TypeError_None,
     record (ExternalReferenceCreate "dshield.org" feed_url) empty_store).
Proof.
  apply (missing_handle_stops_publishing (reliable_world []) (mkConnector None)).
  - reflexivity.
  - left. reflexivity.
  - discriminate.
Defined.

Lemma process_entries_no_ip (w : World) (self : Connector)
    (ext : option string) (data : list Entry) (objects : list Obj) (s : Store) :
  (forall e, e ∈ data -> ip e = None) ->
  process_entries w self ext data objects s = (Ok objects, s).
Proof.
  intros H. induction data as [| e data IH]; [reflexivity |].
  cbn [process_entries]. rewrite bind_run, process_entry_run.
  rewrite (H e) by left. apply IH. intros e' He'. apply H. right. exact He'.
Qed.

Lemma create_opencti_objects_run (w : World) (self : Connector)
    (data : list Entry) (test_mode : bool) (s : Store) :
  create_opencti_objects w self data test_mode s =
  match raises w (calls s) (ExternalReferenceCreate "dshield.org" feed_url) with
  | Some x => (Raise x, record (ExternalReferenceCreate "dshield.org" feed_url) s)
  | None =>
      match process_entries w self
              (answer w (calls s) (ExternalReferenceCreate "dshield.org" feed_url))
              data [] (record (ExternalReferenceCreate "dshield.org" feed_url) s)
      with
      | (Ok objects, s') => (Ok (mkOutput (extract_labels data) objects), s')
      | (Raise x, s') => (Raise x, s')
      end
  end.
Proof.
  unfold create_opencti_objects. cbv zeta. rewrite bind_run. unfold create.
  destruct (raises w (calls s) _) as [x |]; [reflexivity |].
  rewrite bind_run. destruct (process_entries _ _ _ _ _ _) as [[objs | x] s1];
    reflexivity.
Qed.

(** X12: A non-empty feed in which no record has an [ip] key still goes
    through: the run creates the external reference, submits nothing
    else to the store, and writes a summary holding the vocabulary and
    no objects. *)
Theorem feed_without_ip_records (w : World) (self : Connector)
    (test_mode : bool) (s : Store) (e : Entry) (d : list Entry) :
  raises w (calls s) (HttpGet feed_url) = None ->
  feed w (calls s) = e :: d ->
  (forall e', e' ∈ e :: d -> ip e' = None) ->
  raises w (HttpGet feed_url :: calls s)
    (ExternalReferenceCreate "dshield.org" feed_url) = None ->
  exists tail,
    calls (run w self test_mode s).2
    = (tail ++ FileWrite "dshield_export.json" (mkOutput (extract_labels (e :: d)) [])
            :: ExternalReferenceCreate "dshield.org" feed_url
            :: HttpGet feed_url :: calls s)%list /\
    (tail = [] \/ exists msg, tail = [LoggerError msg]).
Proof.
  intros Hh Hf Hip Hr.
  assert (F : fetch_dshield_data w s = (Ok (e :: d), record (HttpGet feed_url) s))
    by (rewrite fetch_dshield_data_run, Hh, Hf; reflexivity).
  assert (C : create_opencti_objects w self (e :: d) test_mode
                (record (HttpGet feed_url) s)
              = (Ok (mkOutput (extract_labels (e :: d)) []),
                 record (ExternalReferenceCreate "dshield.org" feed_url)
                   (record (HttpGet feed_url) s))).
  { rewrite create_opencti_objects_run. simpl calls. rewrite Hr.
    rewrite process_entries_no_ip by exact Hip. reflexivity. }
  rewrite run_run, F, C, save_to_json_run. simpl.
  destruct (raises w _ (FileWrite _ _)).
  - eexists [_]. split; [reflexivity | right; eexists; reflexivity].
  - exists []. split; [reflexivity | left; reflexivity].
Qed.

Lemma feed_without_ip_records_witness :
  exists tail,
    calls (run (reliable_world [mkEntry None (Some "Scanner")])
             (mkConnector (Some "org")) false empty_store).2
    = (tail ++ FileWrite "dshield_export.json"
                 (mkOutput (extract_labels [mkEntry None (Some "Scanner")]) [])
            :: ExternalReferenceCreate "dshield.org" feed_url
            :: HttpGet feed_url :: calls empty_store)%list /\
    (tail = [] \/ exists msg, tail = [LoggerError msg]).
Proof.
  apply (feed_without_ip_records (reliable_world [mkEntry None (Some "Scanner")])
           (mkConnector (Some "org")) false empty_store
           (mkEntry None (Some "Scanner")) []).
  - reflexivity.
  - reflexivity.
  - intros e' He'. apply list_elem_of_singleton in He'. subst e'. reflexivity.
  - reflexivity.
Defined.

(** ** The shape of a run *)

Lemma publishing_calls_quiet (data : list Entry) (cs : list Call) :
  Forall (publishing_call data) cs -> requests cs = [] /\ writes cs = [].
Proof.
  induction 1 as [| c cs Hc _ [IH1 IH2]]; [split; reflexivity |].
  unfold requests, writes in *.
  destruct c; simpl in *; try contradiction; auto.
Qed.

Lemma rev_snoc_trace (first : Call) (new tail old : list Call) (cs : list Call) :
  cs = (rev new ++ first :: old)%list ->
  (rev tail ++ cs)%list = (rev (first :: new ++ tail) ++ old)%list.
Proof.
  intros ->. simpl. rewrite rev_app_distr, <- !app_assoc. reflexivity.
Qed.

(** X13: Every run requests the feed exactly once, as its first action, and
    writes a file at most once: the file is dshield_export.json, and
    the write is the last action of the run, followed at most by the
    error line logged when the write itself fails. *)
Theorem run_trace_shape (w : World) (self : Connector) (test_mode : bool)
    (s : Store) :
  exists mid,
    calls (run w self test_mode s).2
    = (rev (HttpGet feed_url :: mid) ++ calls s)%list /\
    requests mid = [] /\
    (writes mid = [] \/
     exists pre out tail,
       mid = (pre ++ FileWrite "dshield_export.json" out :: tail)%list /\
       writes pre = [] /\
       (tail = [] \/ exists msg, tail = [LoggerError msg])).
Proof.
  rewrite run_run, fetch_dshield_data_run.
  destruct (raises w (calls s) (HttpGet feed_url)) as [x |].
  { eexists [_; _]. split; [reflexivity |]. split; [reflexivity | left; reflexivity]. }
  destruct (feed w (calls s)) as [| e d].
  { eexists [_]. split; [reflexivity |]. split; [reflexivity | left; reflexivity]. }
  destruct (create_opencti_objects_trace w self (e :: d) test_mode
              (record (HttpGet feed_url) s)) as (rest & E & F).
  destruct (publishing_calls_quiet _ _ F) as [Q1 Q2].
  set (new := ExternalReferenceCreate "dshield.org" feed_url :: rest) in *.
  assert (R : requests new = []) by exact Q1.
  assert (W : writes new = []) by exact Q2.
  destruct (create_opencti_objects w self (e :: d) test_mode _) as [[out | x] s2];
    change (calls s2 = (rev new ++ HttpGet feed_url :: calls s)%list) in E.
  - rewrite save_to_json_run. simpl.
    destruct (raises w (calls s2) (FileWrite "dshield_export.json" out)) as [x |].
    + exists (new ++ [FileWrite "dshield_export.json" out;
                      LoggerError ("Error saving data to " +:+ "dshield_export.json"
                                   +:+ ": " +:+ exn_msg x)])%list.
      split; [apply (rev_snoc_trace _ _ [_; _] _ _ E) |].
      split; [unfold requests in *; rewrite omap_app, R; reflexivity |].
      right. exists new, out, [LoggerError ("Error saving data to "
                                            +:+ "dshield_export.json"
                                            +:+ ": " +:+ exn_msg x)].
      split; [reflexivity |]. split; [exact W |]. right. eexists. reflexivity.
    + exists (new ++ [FileWrite "dshield_export.json" out])%list.
      split; [apply (rev_snoc_trace _ _ [_] _ _ E) |].
      split; [unfold requests in *; rewrite omap_app, R; reflexivity |].
      right. exists new, out, []. split; [reflexivity |]. split; [exact W |].
      left. reflexivity.
  - exists (new ++ [LoggerError ("Error in connector run: " +:+ exn_msg x)])%list.
    split; [apply (rev_snoc_trace _ _ [_] _ _ E) |].
    split; [unfold requests in *; rewrite omap_app, R; reflexivity |].
    left. unfold writes in *. rewrite omap_app, W. reflexivity.
Qed.


(** ** A creation that returns no object *)

(** X14: When the search finds no label for the tag and the creation call
    comes back without an object, the label is treated as failed: the
    error of subscripting [None] is logged for it, the loop pauses, and
    the store keeps its labels; nothing is attached. *)
Theorem label_creation_without_object (w : World) (oid v label : string) (s : Store) :
  raises w (calls s) (LabelList label) = None ->
  (forall l, l ∈ store_labels s -> search_match w label (lbl_value l) = true ->
             lower (lbl_value l) <> lower label) ->
  raises w (LabelList label :: calls s) (LabelCreate label default_color) = None ->
  answer w (LabelList label :: calls s) (LabelCreate label default_color) = None ->
  add_one_label w oid v label s
  = (Ok tt,
     mkStore (store_labels s)
       (Sleep :: HelperLogError (label_failure label v TypeError_None)
        :: LabelCreate label default_color :: LabelList label :: calls s)).
Proof.
  intros Hl Hno Hr Ha.
  assert (G : get_label w label default_color s
              = (Raise TypeError_None,
                 record (LabelCreate label default_color)
                   (record (LabelList label) s))).
  { rewrite get_label_run, Hl.
    assert (F : find_label
                  (filter (fun l => search_match w label (lbl_value l) = true)
                     (store_labels s)) label = None).
    { apply find_label_none. intros l Hin. apply list_elem_of_filter in Hin.
      destruct Hin as [Hm Hin]. apply Hno; assumption. }
    rewrite F. unfold label_create. simpl calls. rewrite Hr, Ha. reflexivity. }
  unfold add_one_label, attach_label. rewrite try_run, bind_run, G. reflexivity.
Qed.

Lemma label_creation_without_object_witness :
  add_one_label
    (mkWorld (fun kw v => String.eqb (lower kw) (lower v)) (fun _ _ => None)
       (fun _ _ => None) (fun _ => []))
    "observable--1.2.3.4" "1.2.3.4" "botnet" empty_store
  = (Ok tt,
     mkStore (store_labels empty_store)
       (Sleep :: HelperLogError (label_failure "botnet" "1.2.3.4" TypeError_None)
        :: LabelCreate "botnet" default_color :: LabelList "botnet"
        :: calls empty_store)).
Proof.
  apply (label_creation_without_object
           (mkWorld (fun kw v => String.eqb (lower kw) (lower v)) (fun _ _ => None)
              (fun _ _ => None) (fun _ => []))
           "observable--1.2.3.4" "1.2.3.4" "botnet" empty_store).
  - reflexivity.
  - intros l Hl. inversion Hl.
  - reflexivity.
  - reflexivity.
Defined.

(** ** One label's turn, in closed form *)

Lemma add_one_label_run (w : World) (oid v label : string) (s1 : Store) :
  add_one_label w oid v label s1 =
  (Ok tt,
   let failed x s' :=
     record Sleep (record (HelperLogError (label_failure label v x)) s') in
   let attach i s' :=
     if truthy i
     then match raises w (Sleep :: calls s') (AddLabel oid i) with
          | None => record (AddLabel oid i) (record Sleep s')
          | Some x => failed x (record (AddLabel oid i) (record Sleep s'))
          end
     else s' in
   let s2 := record (LabelList label) s1 in
   match raises w (calls s1) (LabelList label) with
   | Some x => failed x s2
   | None =>
       match find_label
               (filter (fun l => search_match w label (lbl_value l) = true)
                  (store_labels s1)) label
       with
       | Some i => attach i s2
       | None =>
           match raises w (calls s2) (LabelCreate label default_color) with
           | Some x => failed x (record (LabelCreate label default_color) s2)
           | None =>
               match answer w (calls s2) (LabelCreate label default_color) with
               | None =>
                   failed TypeError_None (record (LabelCreate label default_color) s2)
               | Some i =>
                   attach i
                     (mkStore (store_labels s1 ++ [mkLabel label i])
                        (LabelCreate label default_color :: calls s2))
               end
           end
       end
   end).
Proof.
  assert (A : forall i s',
             (if truthy i
              then emit Sleep ;; call w (AddLabel oid i)
              else mret tt) s'
             = match (if truthy i
                      then raises w (Sleep :: calls s') (AddLabel oid i)
                      else None) with
               | None =>
                   (Ok tt, if truthy i
                           then record (AddLabel oid i) (record Sleep s')
                           else s')
               | Some x => (Raise x, record (AddLabel oid i) (record Sleep s'))
               end).
  { intros i s'. destruct (truthy i); [| reflexivity].
    rewrite bind_run. unfold call. simpl.
    destruct (raises w (Sleep :: calls s') (AddLabel oid i)); reflexivity. }
  unfold add_one_label, attach_label. rewrite try_run, bind_run, get_label_run.
  cbv zeta.
  destruct (raises w (calls s1) (LabelList label)) as [x |]; [reflexivity |].
  destruct (find_label _ label) as [i |].
  - rewrite A. destruct (truthy i); [| reflexivity].
    destruct (raises w _ (AddLabel oid i)); reflexivity.
  - unfold label_create. simpl calls.
    destruct (raises w _ (LabelCreate label default_color)) as [x |]; [reflexivity |].
    destruct (answer w _ (LabelCreate label default_color)) as [i |]; [| reflexivity].
    simpl get_id. cbv [mret M_ret]. rewrite A. destruct (truthy i); [| reflexivity].
    simpl calls. destruct (raises w _ (AddLabel oid i)); reflexivity.
Qed.

(** C5: when the observable has been created, the record is published
    and the label loop runs over all its labels.  The loop never
    raises and always goes on to the next label.  Each label's turn is
    fixed by the store alone: the search is issued; when it raises, or
    the creation that follows an empty search raises or returns no
    object, the failure is logged for this label and the loop pauses;
    otherwise the label is resolved and, its handle being non-empty,
    the loop pauses and issues the attachment, whose failure is logged
    for this label in the same way.  So the store is searched for
    every label of the record, in order. *)
Theorem label_failures_are_isolated (w : World) (self : Connector)
    (ext : option string) (e : Entry) (objects : list Obj) (s : Store)
    (v org ref oid : string) :
  ip e = Some v -> organization self = Some org -> ext = Some ref ->
  raises w (calls s)
    (ObservableCreate "IPv4-Addr.value" v [ref] org "IPv4-Addr") = None ->
  answer w (calls s)
    (ObservableCreate "IPv4-Addr.value" v [ref] org "IPv4-Addr") = Some oid ->
  process_entry w self ext e objects s
  = (Ok (objects ++ [mkObj "ipv4-addr" v (entry_labels e)])%list,
     (add_labels w oid v (entry_labels e)
        (record (ObservableCreate "IPv4-Addr.value" v [ref] org "IPv4-Addr") s)).2) /\
  (forall labels s1, (add_labels w oid v labels s1).1 = Ok tt) /\
  (forall label rest s1,
     add_labels w oid v (label :: rest) s1
     = add_labels w oid v rest (add_one_label w oid v label s1).2) /\
  (forall label s1,
     add_one_label w oid v label s1 =
     (Ok tt,
      let failed x s' :=
        record Sleep (record (HelperLogError (label_failure label v x)) s') in
      let attach i s' :=
        if truthy i
        then match raises w (Sleep :: calls s') (AddLabel oid i) with
             | None => record (AddLabel oid i) (record Sleep s')
             | Some x => failed x (record (AddLabel oid i) (record Sleep s'))
             end
        else s' in
      let s2 := record (LabelList label) s1 in
      match raises w (calls s1) (LabelList label) with
      | Some x => failed x s2
      | None =>
          match find_label
                  (filter (fun l => search_match w label (lbl_value l) = true)
                     (store_labels s1)) label
          with
          | Some i => attach i s2
          | None =>
              match raises w (calls s2) (LabelCreate label default_color) with
              | Some x => failed x (record (LabelCreate label default_color) s2)
              | None =>
                  match answer w (calls s2) (LabelCreate label default_color) with
                  | None =>
                      failed TypeError_None
                        (record (LabelCreate label default_color) s2)
                  | Some i =>
                      attach i
                        (mkStore (store_labels s1 ++ [mkLabel label i])
                           (LabelCreate label default_color :: calls s2))
                  end
              end
          end
      end)) /\
  (exists new,
     calls (process_entry w self ext e objects s).2
     = (rev new ++ ObservableCreate "IPv4-Addr.value" v [ref] org "IPv4-Addr"
                   :: calls s)%list /\
     searched new = entry_labels e /\
     Forall (tag_call oid v (entry_labels e)) new).
Proof.
  intros Hip Horg Hext Hr Ha.
  assert (R : process_entry w self ext e objects s
              = (Ok (objects ++ [mkObj "ipv4-addr" v (entry_labels e)])%list,
                 (add_labels w oid v (entry_labels e)
                    (record (ObservableCreate "IPv4-Addr.value" v [ref] org
                               "IPv4-Addr") s)).2)).
  { rewrite process_entry_run, Hip, Hext, create_observable_run, Horg.
    cbv zeta. rewrite Hr, Ha. reflexivity. }
  split; [exact R |]. split; [| split; [| split]].
  - intros labels s1. apply add_labels_spec.
  - intros label rest s1. simpl. rewrite bind_run.
    destruct (add_one_label_spec w oid v label s1) as [R1 _].
    destruct (add_one_label w oid v label s1) as [r1 s1']. simpl in R1. subst r1.
    reflexivity.
  - intros label s1. apply add_one_label_run.
  - rewrite R.
    destruct (add_labels_spec w oid v (entry_labels e)
                (record (ObservableCreate "IPv4-Addr.value" v [ref] org "IPv4-Addr") s))
      as (_ & new & E & S & T).
    exists new. auto.
Qed.

Lemma label_failures_are_isolated_witness :
  process_entry (rate_limited_world []) (mkConnector (Some "org")) (Some "ref")
    (mkEntry (Some "1.2.3.4") (Some "botnet")) [] empty_store
  = (Ok [mkObj "ipv4-addr" "1.2.3.4" ["dshield"; "botnet"]],
     mkStore [mkLabel "dshield" "label--dshield"; mkLabel "botnet" "label--botnet"]
       (rev [ObservableCreate "IPv4-Addr.value" "1.2.3.4" ["ref"] "org" "IPv4-Addr";
             LabelList "dshield"; LabelCreate "dshield" "#ffa500"; Sleep;
             AddLabel "observable--1.2.3.4" "label--dshield";
             HelperLogError
               "Failed to add label dshield to 1.2.3.4: rate limit";
             Sleep;
             LabelList "botnet"; LabelCreate "botnet" "#ffa500"; Sleep;
             AddLabel "observable--1.2.3.4" "label--botnet"])).
Proof.
  etrans.
  - apply (label_failures_are_isolated (rate_limited_world [])
             (mkConnector (Some "org")) (Some "ref")
             (mkEntry (Some "1.2.3.4") (Some "botnet")) [] empty_store
             "1.2.3.4" "org" "ref" "observable--1.2.3.4");
      reflexivity.
  - vm_compute. reflexivity.
Defined.

(** ** One record's turn, in closed form *)


(** ** The existence checks of a publishing pass *)

Lemma process_entry_searches (w : World) (self : Connector) (ext : option string)
    (e : Entry) (objects : list Obj) (s : Store) :
  exists new,
    calls (process_entry w self ext e objects s).2 = (rev new ++ calls s)%list /\
    forall objects',
      (process_entry w self ext e objects s).1 = Ok objects' ->
      exists added,
        objects' = (objects ++ added)%list /\
        searched new = concat (map obj_labels added).
Proof.
  rewrite process_entry_run.
  destruct (ip e) as [v |].
  2:{ exists []. split; [reflexivity |]. intros ? [= <-]. exists [].
      split; [rewrite app_nil_r |]; reflexivity. }
  destruct ext as [ref |]; [| exists []; split; [reflexivity | intros ? [=]]].
  rewrite create_observable_run.
  destruct (organization self) as [org |];
    [| exists []; split; [reflexivity | intros ? [=]]].
  cbv zeta.
  destruct (raises w (calls s) _) as [x |];
    [eexists [_]; split; [reflexivity | intros ? [=]] |].
  destruct (answer w (calls s) _) as [oid |].
  - destruct (add_labels_spec w oid v (entry_labels e)
                (record (ObservableCreate "IPv4-Addr.value" v [ref] org "IPv4-Addr") s))
      as (_ & new & E & S & _).
    exists (ObservableCreate "IPv4-Addr.value" v [ref] org "IPv4-Addr" :: new).
    split; [etrans; [exact E |]; simpl; rewrite <- app_assoc; reflexivity |].
    intros ? [= <-]. exists [mkObj "ipv4-addr" v (entry_labels e)].
    split; [reflexivity |]. simpl. rewrite app_nil_r.
    change (searched new = entry_labels e). exact S.
  - eexists [_]. split; [reflexivity |]. intros ? [= <-]. exists [].
    split; [rewrite app_nil_r |]; reflexivity.
Qed.

Lemma process_entries_searches (w : World) (self : Connector) (ext : option string)
    (data : list Entry) (objects : list Obj) (s : Store) :
  exists new,
    calls (process_entries w self ext data objects s).2 = (rev new ++ calls s)%list /\
    forall objects',
      (process_entries w self ext data objects s).1 = Ok objects' ->
      exists added,
        objects' = (objects ++ added)%list /\
        searched new = concat (map obj_labels added).
Proof.
  revert objects s. induction data as [| e data IH]; intros objects s.
  - exists []. split; [reflexivity |]. intros ? [= <-]. exists [].
    split; [rewrite app_nil_r |]; reflexivity.
  - cbn [process_entries]. rewrite bind_run.
    destruct (process_entry_searches w self ext e objects s) as (n1 & E1 & R1).
    destruct (process_entry w self ext e objects s) as [[objects1 | x] s1];
      simpl in E1.
    + destruct (IH objects1 s1) as (n2 & E2 & R2).
      exists (n1 ++ n2)%list.
      split; [rewrite rev_app_distr, E2, E1, <- app_assoc; reflexivity |].
      intros objects' H'.
      destruct (R1 objects1 eq_refl) as (a1 & -> & S1).
      destruct (R2 objects' H') as (a2 & -> & S2).
      exists (a1 ++ a2)%list. split; [rewrite app_assoc; reflexivity |].
      unfold searched in *. rewrite omap_app, S1, S2, map_app, concat_app.
      reflexivity.
    + exists n1. split; [exact E1 | intros ? [=]].
Qed.

(** C3 (amended): the connector keeps no cache of resolved tags.  Every
    resolution call, whatever was resolved before, issues exactly one
    existence-check query for its tag, and issues the creation call
    exactly when that query answers without a label equal to the tag
    up to case.  The label loop queries the store once for each of its
    labels, in order; and whenever a publishing pass returns, the
    queries it issued are, in order, the label lists of the published
    objects: a tag is queried once for each time it occurs in the label
    list of a created observable. *)
Theorem get_label_queries_every_time (w : World) :
  (forall t color s,
     exists new,
       calls (get_label w t color s).2 = (rev new ++ calls s)%list /\
       searched new = [t] /\
       created new
       = match raises w (calls s) (LabelList t),
               find_label
                 (filter (fun l => search_match w t (lbl_value l) = true)
                    (store_labels s)) t
         with
         | None, None => [t]
         | _, _ => []
         end) /\
  (forall oid v labels s,
     exists new,
       calls (add_labels w oid v labels s).2 = (rev new ++ calls s)%list /\
       searched new = labels) /\
  (forall self data test_mode s out,
     (create_opencti_objects w self data test_mode s).1 = Ok out ->
     exists new,
       calls (create_opencti_objects w self data test_mode s).2
       = (rev new ++ calls s)%list /\
       searched new = concat (map obj_labels (out_objects out))).
Proof.
  split; [| split].
  - intros t color s. rewrite get_label_run.
    destruct (raises w (calls s) (LabelList t)) as [x |];
      [exists [LabelList t]; repeat split |].
    destruct (find_label _ t) as [i |];
      [exists [LabelList t]; repeat split |].
    exists [LabelList t; LabelCreate t color]. unfold label_create. simpl calls.
    destruct (raises w _ (LabelCreate t color)); [repeat split |].
    destruct (answer w _ (LabelCreate t color)); repeat split.
  - intros oid v labels s.
    destruct (add_labels_spec w oid v labels s) as (_ & new & E & S & _).
    exists new. auto.
  - intros self data test_mode s out. rewrite create_opencti_objects_run.
    destruct (raises w (calls s) _) as [x |]; [intros [=] |].
    destruct (process_entries_searches w self
                (answer w (calls s) (ExternalReferenceCreate "dshield.org" feed_url))
                data [] (record (ExternalReferenceCreate "dshield.org" feed_url) s))
      as (new & E & R).
    destruct (process_entries _ _ _ _ _ _) as [[objs | x] s1]; [| intros [=]].
    intros [= <-]. destruct (R objs eq_refl) as (added & -> & S).
    exists (ExternalReferenceCreate "dshield.org" feed_url :: new).
    split; [simpl in *; rewrite E, <- app_assoc; reflexivity | exact S].
Qed.

(** ** Creating a tag: what holds when creation can fail *)

Lemma once_succeeded_record (w : World) (t : string) (c : Call) (s : Store) :
  created [c] = [] -> once_succeeded w t s -> once_succeeded w t (record c s).
Proof.
  intros Hc [Hle Hex]. unfold once_succeeded, has_label in *. simpl.
  destruct c; try discriminate; auto.
Qed.

Lemma get_label_once_succeeded (w : World) (t : string) :
  honest_search w ->
  forall l color, stable (once_succeeded w t) (get_label w l color).
Proof.
  intros Hs l color s [Hle Hex]. rewrite get_label_run.
  destruct (raises w (calls s) (LabelList l)) as [x |];
    [apply once_succeeded_record; [reflexivity | split; assumption] |].
  destruct (find_label _ l) as [i |] eqn:F;
    [apply once_succeeded_record; [reflexivity | split; assumption] |].
  unfold label_create. simpl calls.
  destruct (raises w (LabelList l :: calls s) (LabelCreate l color)) as [x |] eqn:Hr.
  { unfold once_succeeded, has_label. simpl. unfold creation_succeeds. rewrite Hr.
    destruct (decide (lower l = lower t)); simpl; split; assumption. }
  destruct (answer w (LabelList l :: calls s) (LabelCreate l color)) as [i |] eqn:Ha.
  2:{ unfold once_succeeded, has_label. simpl. unfold creation_succeeds.
      rewrite Hr, Ha. destruct (decide (lower l = lower t)); simpl; split; assumption. }
  simpl. unfold once_succeeded, has_label. simpl. unfold creation_succeeds.
  rewrite Hr, Ha.
  destruct (decide (lower l = lower t)) as [E | N]; simpl.
  - assert (Z : successful_creations w t (calls s) = 0).
    { destruct (successful_creations w t (calls s)) as [| [| n]] eqn:C;
        [reflexivity | | lia].
      exfalso. destruct (Hex eq_refl) as (lab & Hlab & Hm).
      rewrite find_label_none in F. apply (F lab); [| congruence].
      apply list_elem_of_filter. split; [| exact Hlab]. apply Hs. congruence. }
    rewrite Z. split; [lia |]. intros _.
    exists (mkLabel l i). split; [| exact E].
    apply elem_of_app. right. left.
  - split; [exact Hle |]. intros H. destruct (Hex H) as (lab & Hlab & Hm).
    exists lab. split; [| exact Hm]. apply elem_of_app. left. exact Hlab.
Qed.

Lemma get_label_creates_when_absent (w : World) (t color : string) (s : Store) :
  ~ has_label t s ->
  raises w (calls s) (LabelList t) = None ->
  calls (get_label w t color s).2 = LabelCreate t color :: LabelList t :: calls s.
Proof.
  intros Hno Hr. rewrite get_label_run, Hr.
  assert (F : find_label
                (filter (fun l => search_match w t (lbl_value l) = true)
                   (store_labels s)) t = None).
  { apply find_label_none. intros l Hl Hm. apply Hno. exists l.
    apply list_elem_of_filter in Hl. split; [apply Hl | exact Hm]. }
  rewrite F. unfold label_create. simpl calls.
  destruct (raises w _ (LabelCreate t color)); [reflexivity |].
  destruct (answer w _ (LabelCreate t color)); reflexivity.
Qed.

(** C2 (as stated, refuted): when the creation call raises, it is issued
    again for every record that carries the tag: three records give
    three creation calls for the base tag. *)
Lemma failed_creation_is_repeated :
  creations_of "dshield"
    (calls (main (label_refusing_world [mkEntry (Some "1.1.1.1") None;
                                        mkEntry (Some "2.2.2.2") None;
                                        mkEntry (Some "3.3.3.3") None])
              (mkArgs false false) empty_store).2)
  = 3.
Proof. vm_compute. reflexivity. Qed.

(** C2 (amended): in a store whose label search returns the labels
    equal to the keyword up to case, at most one creation call per tag
    succeeds in a whole run, however many records carry the tag, and
    the run leaves at most one label per tag in a store that held
    none.  Once the store holds a label equal to the tag up to case, a
    resolution issues the search only, creates nothing, and returns the
    handle of such a label.  The creation call itself is issued at most
    once per tag when label creation succeeds; while the store holds no
    label for the tag, as after a creation that raised or returned no
    object, every resolution whose search answers issues the creation
    call again. *)
Theorem tag_created_at_most_once (w : World) :
  honest_search w ->
  (forall args s t,
     successful_creations w t (calls s) = 0 ->
     successful_creations w t (calls (main w args s).2) <= 1) /\
  (forall args s t,
     labels_for t (main w args s).2 <= Nat.max 1 (labels_for t s)) /\
  (forall t color s,
     has_label t s ->
     calls (get_label w t color s).2 = LabelList t :: calls s /\
     store_labels (get_label w t color s).2 = store_labels s /\
     match (get_label w t color s).1 with
     | Ok i =>
         exists l, l ∈ store_labels s /\ lower (lbl_value l) = lower t /\ lbl_id l = i
     | Raise e => raises w (calls s) (LabelList t) = Some e
     end) /\
  (reliable_label_create w ->
   forall args s t,
     creations_of t (calls s) = 0 ->
     creations_of t (calls (main w args s).2) <= 1) /\
  (forall t color s,
     ~ has_label t s ->
     raises w (calls s) (LabelList t) = None ->
     calls (get_label w t color s).2 = LabelCreate t color :: LabelList t :: calls s).
Proof.
  intros Hs. split; [| split; [| split; [| split]]].
  - intros args s t Z.
    assert (H : once_succeeded w t (main w args s).2).
    { apply (stable_main w (once_succeeded w t)).
      - intros c s0. apply once_succeeded_record.
      - apply get_label_once_succeeded. exact Hs.
      - split; [lia | intros H; lia]. }
    apply H.
  - intros args s t.
    apply (stable_main w (fun s0 => labels_for t s0 <= Nat.max 1 (labels_for t s))).
    + intros c s0 _ H. exact H.
    + apply get_label_labels_for. exact Hs.
    + lia.
  - intros t color s H. apply get_label_existing; assumption.
  - intros Hc args s t Z.
    assert (H : once_created t (main w args s).2).
    { apply (stable_main w (once_created t)).
      - intros c s0. apply once_created_record.
      - apply get_label_once_created; assumption.
      - split; [lia | intros H; lia]. }
    apply H.
  - intros t color s. apply get_label_creates_when_absent.
Qed.

Lemma tag_created_at_most_once_witness :
  successful_creations
    (reliable_world [mkEntry (Some "1.1.1.1") None;
                     mkEntry (Some "2.2.2.2") (Some "DShield")])
    "dshield"
    (calls (main (reliable_world [mkEntry (Some "1.1.1.1") None;
                                  mkEntry (Some "2.2.2.2") (Some "DShield")])
              (mkArgs false false) empty_store).2) <= 1.
Proof.
  assert (Hs : honest_search
                 (reliable_world [mkEntry (Some "1.1.1.1") None;
                                  mkEntry (Some "2.2.2.2") (Some "DShield")])).
  { intros kw v H. simpl. rewrite H. apply String.eqb_refl. }
  apply (proj1 (tag_created_at_most_once _ Hs)). reflexivity.
Defined.
